(** * check_placement: audit and repair of duplicate placement allocations

    A shallow embedding of [check_placement.py].  The script reads every
    resource provider and its allocations from the placement service,
    builds a per-instance tally, classifies the instances that hold
    allocations on more than one provider, prints a report and, with
    [--repair], overwrites the allocation record of each such instance
    with the allocation found on the host the compute service reports.

    Modelling choices:
    - a Python [dict] is an association list with unique keys, iterated
      in insertion order ([dict_get], [dict_set], [dict_alter],
      [dict_items]); its meaning as a mapping is the [gmap] obtained
      with [list_to_map];
    - a JSON document is a record of the keys the program reads, a key
      that may be missing being an [option];
    - the cloud (HTTP session, compute lookup, file system) is a record of
      responses, [Cloud]; a call that raises inside a library is a [Raise];
    - what the program does to the outside is a trace of [Event]s, and the
      program is written in a writer-and-exception monad [M]: an
      exception is never caught, it ends the run with the events
      performed so far. *)

From stdpp Require Import gmap strings list fin_maps.
From Stdlib Require Import ZArith.

Local Open Scope Z_scope.
Local Open Scope string_scope.
Local Open Scope list_scope.

(** ** Python dictionaries *)

Module Dict.

Definition dict (V : Type) : Type := list (string * V).

(** [d.get(k)] / [d[k]]: the value stored under [k], if any. *)
Fixpoint dict_get {V} (k : string) (d : dict V) : option V :=
  match d with
  | [] => None
  | (k', v) :: d' => if decide (k = k') then Some v else dict_get k d'
  end.

(** [d[k] = v]: an existing key keeps its place, a new key goes last. *)
Fixpoint dict_set {V} (k : string) (v : V) (d : dict V) : dict V :=
  match d with
  | [] => [(k, v)]
  | (k', v') :: d' =>
      if decide (k = k') then (k, v) :: d' else (k', v') :: dict_set k v d'
  end.

(** In-place change of the value stored under [k] ([d[k].method(...)]);
    the caller guarantees that [k] is present. *)
Fixpoint dict_alter {V} (f : V -> V) (k : string) (d : dict V) : dict V :=
  match d with
  | [] => []
  | (k', v) :: d' =>
      if decide (k = k') then (k', f v) :: d' else (k', v) :: dict_alter f k d'
  end.

(** [k in d] *)
Definition dict_mem {V} (k : string) (d : dict V) : bool :=
  match dict_get k d with Some _ => true | None => false end.

(** [d.items()], [len(d)] *)
Definition dict_items {V} (d : dict V) : list (string * V) := d.
Definition dict_len {V} (d : dict V) : nat := length d.

(** The mapping a dictionary denotes, forgetting insertion order. *)
Definition dict_map {V} (d : dict V) : gmap string V := list_to_map d.

End Dict.
Export Dict.

(** ** Data model *)

(** A resource provider as listed by [GET /resource_providers]; the
    program reads its ['uuid'] and ['name']. *)
Record ResourceProvider : Type := mkProvider {
  rp_uuid : string;
  rp_name : string
}.

(** Resource class name to consumed amount. *)
Definition Resources : Type := list (string * Z).

(** One allocation of an instance on a provider; the program reads its
    ['resources']. *)
Record Allocation : Type := mkAllocation {
  resources : Resources
}.

(** An element of [multiple[instance_uuid]['allocations']]. *)
Record Entry : Type := mkEntry {
  e_provider : ResourceProvider;
  e_active : bool;
  e_allocation : Allocation
}.

(** A value of [multiple]: ['uuid'], ['active'], ['allocations']. *)
Record ConflictRecord : Type := mkRecord {
  c_uuid : string;
  c_active : option string;
  c_allocations : list Entry
}.

(** The body of [PUT /allocations/{instance_uuid}] built by
    [set_allocation]. *)
Record AllocationRequest : Type := mkRequest {
  resource_provider_uuid : string;
  req_resources : Resources
}.

Record PutBody : Type := mkBody {
  body_allocations : list AllocationRequest
}.

(** ** Exceptions, responses and the cloud *)

Inductive exn : Type :=
| KeyError (key : string)          (* a missing dictionary key *)
| HTTPError (status : Z)           (* raised by [raise_for_status] *)
| LibraryError (what : string).    (* raised inside a library call *)

Inductive Result (A : Type) : Type :=
| Ok (a : A)
| Raise (e : exn).
Arguments Ok {A} a.
Arguments Raise {A} e.

(** An HTTP response: its status and its decoded JSON body. *)
Record Response (A : Type) : Type := mkResponse {
  status_code : Z;
  json : A
}.
Arguments mkResponse {A} _ _.
Arguments status_code {A} _.
Arguments json {A} _.

(** The body of [GET /resource_providers]: the key ['resource_providers']
    may be missing (it is read with [.get(..., [])]). *)
Record ProvidersDoc : Type := mkProvidersDoc {
  doc_resource_providers : option (list ResourceProvider)
}.

(** The body of [GET /resource_providers/{uuid}/allocations]: the key
    ['allocations'] may be missing (it is read with [[...]]). *)
Record AllocationsDoc : Type := mkAllocationsDoc {
  doc_allocations : option (dict Allocation)
}.

(** What [cloud_api.get_server] returns when it finds the instance; the
    program reads ['OS-EXT-SRV-ATTR:hypervisor_hostname'] with [.get]. *)
Record Server : Type := mkServer {
  hypervisor_hostname : option string
}.

(** The outside world of one run.  [session_get_*] and [session_put] are
    the calls on the keystone session, [get_server] the compute lookup,
    [open_write] the result of opening the JSON output file. *)
Record Cloud : Type := mkCloud {
  session_get_resource_providers : Result (Response ProvidersDoc);
  session_get_allocations : string -> Result (Response AllocationsDoc);
  session_put_allocations : string -> PutBody -> Result (Response unit);
  get_server : string -> Result (option Server);
  open_write : string -> Result unit
}.

(** Command line, as left by [parse_args]. *)
Record Args : Type := mkArgs {
  repair : bool;
  limit : list string;
  output_json : option string
}.

(** ** Effects *)

Inductive LogLevel : Type := INFO | WARNING.

Inductive Event : Type :=
| EvLog (level : LogLevel) (msg : string)
| EvPrint (line : string)
| EvPut (instance_uuid : string) (data : PutBody)
| EvDump (path : string) (multiple : dict ConflictRecord).

(** A computation yields the events it performed and either a value or
    the exception that stopped it. *)
Definition M (A : Type) : Type := list Event * Result A.

Definition ret {A} (a : A) : M A := ([], Ok a).

Definition bind {A B} (m : M A) (f : A -> M B) : M B :=
  match m with
  | (t, Ok a) => let '(t', r) := f a in (t ++ t', r)
  | (t, Raise e) => (t, Raise e)
  end.

Definition emit (ev : Event) : M unit := ([ev], Ok tt).
Definition lift {A} (r : Result A) : M A := ([], r).

Declare Scope prog_scope.
Delimit Scope prog_scope with prog.
Notation "x <- m ;; k" := (bind m (fun x => k))
  (at level 100, m at level 99, k at level 200, right associativity,
   format "'[v' x  <-  m  ;; '/' k ']'") : prog_scope.
Notation "m ;; k" := (bind m (fun _ => k))
  (at level 100, k at level 200, right associativity,
   format "'[v' m  ;; '/' k ']'") : prog_scope.
Local Open Scope prog_scope.

(** [for x in l: body x] *)
Fixpoint for_each {A} (l : list A) (body : A -> M unit) : M unit :=
  match l with
  | [] => ret tt
  | x :: l' => body x ;; for_each l' body
  end.

(** [for x in l: acc = body acc x] with the loop's variables threaded. *)
Fixpoint for_fold {A S} (l : list A) (body : S -> A -> M S) (acc : S) : M S :=
  match l with
  | [] => ret acc
  | x :: l' => acc' <- body acc x ;; for_fold l' body acc'
  end.

Definition trace {A} (m : M A) : list Event := m.1.
Definition outcome {A} (m : M A) : Result A := m.2.

(** The value of a computation that ended normally. *)
Definition outcome_value {A} (m : M A) : option A :=
  match outcome m with Ok a => Some a | Raise _ => None end.

(** The [replaceAllocation] calls of a trace, in order. *)
Definition puts (t : list Event) : list (string * PutBody) :=
  omap (fun ev => match ev with EvPut i b => Some (i, b) | _ => None end) t.

(** The lines written to standard output, in order. *)
Definition stdout (t : list Event) : list string :=
  omap (fun ev => match ev with EvPrint l => Some l | _ => None end) t.

Definition LOG_info (msg : string) : M unit := emit (EvLog INFO msg).
Definition LOG_warning (msg : string) : M unit := emit (EvLog WARNING msg).
Definition print (line : string) : M unit := emit (EvPrint line).

(** [d[k]], which raises [KeyError] on a missing key. *)
Definition getitem {V} (k : string) (d : dict V) : Result V :=
  match dict_get k d with
  | Some v => Ok v
  | None => Raise (KeyError k)
  end.

(** ** The placement gateway (class [Placement]) *)

(** [Response.raise_for_status] of the HTTP library: an error for the
    4xx and 5xx statuses. *)
Definition raise_for_status {A} (res : Response A) : Result unit :=
  if ((400 <=? status_code res) && (status_code res <? 600))%Z
  then Raise (HTTPError (status_code res))
  else Ok tt.

(** The [data] that [set_allocation] sends: one resource provider, the
    entry's provider, with the entry's resources. *)
Definition allocation_data (allocation : Entry) : PutBody :=
  {| body_allocations :=
      [ {| resource_provider_uuid := rp_uuid (e_provider allocation);
           req_resources := resources (e_allocation allocation) |} ] |}.

Section Program.

Variable cloud : Cloud.
Variable args : Args.

Definition list_resource_providers : M (list ResourceProvider) :=
  res <- lift (session_get_resource_providers cloud) ;;
  ret (default [] (doc_resource_providers (json res))).

Definition get_resource_provider_allocations (uuid : string)
  : M AllocationsDoc :=
  res <- lift (session_get_allocations cloud uuid) ;;
  ret (json res).

Definition set_allocation (instance_uuid : string) (allocation : Entry)
  : M unit :=
  let data := allocation_data allocation in
  emit (EvPut instance_uuid data) ;;
  res <- lift (session_put_allocations cloud instance_uuid data) ;;
  lift (raise_for_status res).

(** ** [main]: building the tally (lines 107-119) *)

(** [allocations['allocations']] *)
Definition getitem_allocations (allocations : AllocationsDoc)
  : Result (dict Allocation) :=
  match doc_allocations allocations with
  | Some d => Ok d
  | None => Raise (KeyError "allocations")
  end.

(** [if instance_uuid not in tally: tally[instance_uuid] = {}]
    [tally[instance_uuid][provider_uuid] = allocation] *)
Definition tally_add (instance_uuid provider_uuid : string)
    (allocation : Allocation) (tally : dict (dict Allocation))
  : dict (dict Allocation) :=
  let tally :=
    if negb (dict_mem instance_uuid tally)
    then dict_set instance_uuid [] tally
    else tally in
  dict_alter (dict_set provider_uuid allocation) instance_uuid tally.

(** The inner loop over one provider's allocations. *)
Definition tally_provider (provider_uuid : string)
    (allocations : dict Allocation) (tally : dict (dict Allocation))
  : dict (dict Allocation) :=
  fold_left
    (fun tally '(instance_uuid, allocation) =>
       tally_add instance_uuid provider_uuid allocation tally)
    (dict_items allocations) tally.

(** The body of the loop over the providers. *)
Definition read_provider
    (st : dict ResourceProvider * dict (dict Allocation))
    (provider : ResourceProvider)
  : M (dict ResourceProvider * dict (dict Allocation)) :=
  let '(providers, tally) := st in
  let providers := dict_set (rp_uuid provider) provider providers in
  allocations <- get_resource_provider_allocations (rp_uuid provider) ;;
  items <- lift (getitem_allocations allocations) ;;
  ret (providers, tally_provider (rp_uuid provider) items tally).

Definition read_phase
  : M (dict ResourceProvider * dict (dict Allocation)) :=
  LOG_info "getting resource allocations" ;;
  listing <- list_resource_providers ;;
  for_fold listing read_provider ([], []).

(** ** [main]: the audit (lines 121-154) *)

(** [multiple[instance_uuid]['allocations'].append(entry)] *)
Definition append_entry (instance_uuid : string) (entry : Entry)
    (multiple : dict ConflictRecord) : dict ConflictRecord :=
  dict_alter
    (fun info => {| c_uuid := c_uuid info;
                    c_active := c_active info;
                    c_allocations := c_allocations info ++ [entry] |})
    instance_uuid multiple.

(** The body of the loop over one instance's allocations. *)
Definition classify (providers : dict ResourceProvider)
    (instance_uuid : string) (current_hypervisor : option string)
    (multiple : dict ConflictRecord) (item : string * Allocation)
  : M (dict ConflictRecord) :=
  let '(provider_uuid, allocation) := item in
  provider <- lift (getitem provider_uuid providers) ;;
  let active :=
    if decide (Some (rp_name provider) = current_hypervisor)
    then true else false in
  ret (append_entry instance_uuid
         {| e_provider := provider;
            e_active := active;
            e_allocation := allocation |} multiple).

(** The body of the loop over the tally. *)
Definition audit_instance (providers : dict ResourceProvider)
    (multiple : dict ConflictRecord) (item : string * dict Allocation)
  : M (dict ConflictRecord) :=
  let '(instance_uuid, allocations) := item in
  if negb (bool_decide (limit args = []))
     && negb (bool_decide (instance_uuid ∈ limit args))
  then ret multiple
  else if bool_decide (1 < dict_len allocations)%nat then
    LOG_info (instance_uuid ++ " has multiple allocations") ;;
    instance <- lift (get_server cloud instance_uuid) ;;
    let current_hypervisor :=
      match instance with
      | Some server => hypervisor_hostname server
      | None => None
      end in
    let multiple :=
      dict_set instance_uuid
        {| c_uuid := instance_uuid;
           c_active := current_hypervisor;
           c_allocations := [] |} multiple in
    for_fold (dict_items allocations)
      (classify providers instance_uuid current_hypervisor) multiple
  else ret multiple.

Definition audit_phase (providers : dict ResourceProvider)
    (tally : dict (dict Allocation)) : M (dict ConflictRecord) :=
  LOG_info "auditing allocations" ;;
  for_fold (dict_items tally) (audit_instance providers) [].

(** ** [main]: JSON export and report (lines 156-164) *)

(** [if args.output_json:] holds for a non-empty path. *)
Definition dump_phase (multiple : dict ConflictRecord) : M unit :=
  match output_json args with
  | Some path =>
      if bool_decide (path = "") then ret tt
      else lift (open_write cloud path) ;; emit (EvDump path multiple)
  | None => ret tt
  end.

Definition report_line (allocation : Entry) : string :=
  let mark := if e_active allocation then "*" else "-" in
  mark ++ " " ++ rp_name (e_provider allocation).

Definition report_instance (item : string * ConflictRecord) : M unit :=
  let '(instance_uuid, info) := item in
  print instance_uuid ;;
  for_each (c_allocations info)
    (fun allocation => print (report_line allocation)).

Definition report_phase (multiple : dict ConflictRecord) : M unit :=
  for_each (dict_items multiple) report_instance.

(** ** [main]: the repair (lines 166-173) *)

(** The loop over one instance's entries, left at the first active
    entry by [break]. *)
Fixpoint repair_scan (instance_uuid : string) (allocations : list Entry)
  : M unit :=
  match allocations with
  | [] => ret tt
  | allocation :: rest =>
      if e_active allocation then
        LOG_warning ("setting allocation for " ++ instance_uuid) ;;
        set_allocation instance_uuid allocation
      else repair_scan instance_uuid rest
  end.

Definition repair_instance (item : string * ConflictRecord) : M unit :=
  let '(instance_uuid, info) := item in
  repair_scan instance_uuid (c_allocations info).

Definition repair_phase (multiple : dict ConflictRecord) : M unit :=
  if repair args then for_each (dict_items multiple) repair_instance
  else ret tt.

(** The classifier as a whole: the tally and the conflict records. *)
Definition classifier : M (dict ConflictRecord) :=
  st <- read_phase ;;
  let '(providers, tally) := st in
  audit_phase providers tally.

Definition main : M unit :=
  multiple <- classifier ;;
  dump_phase multiple ;;
  report_phase multiple ;;
  repair_phase multiple.

End Program.

(** * Vocabulary of the properties *)

(** ** Traces *)

(** Events that are neither a write to placement nor a printed line. *)
Definition silent (ev : Event) : Prop :=
  match ev with
  | EvLog _ _ | EvDump _ _ => True
  | EvPrint _ | EvPut _ _ => False
  end.

Definition not_put (ev : Event) : Prop :=
  match ev with EvPut _ _ => False | _ => True end.

(** ** The read phase *)

(** What the read loop obtains for one provider: the ['allocations'] of
    the decoded response, or the exception raised on the way. *)
Definition fetch (cloud : Cloud) (uuid : string) : Result (dict Allocation) :=
  match session_get_allocations cloud uuid with
  | Ok res => getitem_allocations (json res)
  | Raise e => Raise e
  end.

(** The invariant of the read loop: keys are unique at every level, each
    provider is filed under its own uuid, and every provider uuid used
    in the tally is a key of [providers]. *)
Record read_inv (providers : dict ResourceProvider)
    (tally : dict (dict Allocation)) : Prop := mkReadInv {
  inv_providers_NoDup : NoDup providers.*1;
  inv_providers_uuid :
    forall u p, dict_get u providers = Some p -> rp_uuid p = u;
  inv_tally_NoDup : NoDup tally.*1;
  inv_allocs_NoDup :
    forall i allocs, dict_get i tally = Some allocs -> NoDup allocs.*1;
  inv_allocs_known :
    forall i allocs u,
      dict_get i tally = Some allocs -> u ∈ allocs.*1 -> u ∈ providers.*1
}.

(** ** The tally as a mapping *)

(** The tally as a mapping: instance uuid to provider uuid to allocation. *)
Definition tally_view (tally : dict (dict Allocation))
  : gmap string (gmap string Allocation) :=
  dict_map <$> dict_map tally.

(** [tally_add] on mappings. *)
Definition merge_allocation (instance_uuid provider_uuid : string)
    (allocation : Allocation) (m : gmap string (gmap string Allocation))
  : gmap string (gmap string Allocation) :=
  <[instance_uuid :=
      <[provider_uuid := allocation]> (default ∅ (m !! instance_uuid))]> m.

(** [tally_provider] on mappings. *)
Definition merge_provider (provider_uuid : string) (items : dict Allocation)
    (m : gmap string (gmap string Allocation))
  : gmap string (gmap string Allocation) :=
  fold_left (fun m item => merge_allocation item.1 provider_uuid item.2 m)
    items m.

(** One turn of the read loop on mappings, for a provider whose
    allocations can be fetched. *)
Definition merge_fetched (cloud : Cloud)
    (m : gmap string (gmap string Allocation)) (provider : ResourceProvider)
  : gmap string (gmap string Allocation) :=
  match fetch cloud (rp_uuid provider) with
  | Ok items => merge_provider (rp_uuid provider) items m
  | Raise _ => m
  end.

(** The cloud with the provider listing replaced by [listing]. *)
Definition with_listing (cloud : Cloud) (listing : list ResourceProvider)
  : Cloud :=
  {| session_get_resource_providers :=
       Ok (mkResponse 200 {| doc_resource_providers := Some listing |});
     session_get_allocations := session_get_allocations cloud;
     session_put_allocations := session_put_allocations cloud;
     get_server := get_server cloud;
     open_write := open_write cloud |}.

(** ** The audit *)

(** The instances the audit keeps: inside the [--limit] list when there
    is one, and with more than one allocation. *)
Definition selected (args : Args) (item : string * dict Allocation) : bool :=
  (bool_decide (limit args = []) || bool_decide (item.1 ∈ limit args))
  && bool_decide (1 < dict_len item.2)%nat.

(** The host the compute lookup reports. *)
Definition host_of (instance : option Server) : option string :=
  match instance with
  | Some server => hypervisor_hostname server
  | None => None
  end.

(** An entry of a conflict record against the tally item it comes from. *)
Definition entry_rel (providers : dict ResourceProvider)
    (host : option string) (e : Entry) (item : string * Allocation) : Prop :=
  dict_get item.1 providers = Some (e_provider e) /\
  e_allocation e = item.2 /\
  (e_active e = true <-> Some (rp_name (e_provider e)) = host).

(** A conflict record against the tally item it comes from. *)
Definition record_rel (cloud : Cloud) (providers : dict ResourceProvider)
    (x : string * ConflictRecord) (item : string * dict Allocation) : Prop :=
  x.1 = item.1 /\
  c_uuid x.2 = item.1 /\
  (exists instance,
      get_server cloud item.1 = Ok instance /\
      c_active x.2 = host_of instance) /\
  Forall2 (entry_rel providers (c_active x.2)) (c_allocations x.2) item.2.

(** ** Report and repair *)

(** The first entry marked active, in the recorded order. *)
Definition first_active (allocations : list Entry) : option Entry :=
  List.find e_active allocations.

(** [allocation] is the first active entry of [allocations]: every entry
    before it is inactive. *)
Definition is_first_active (allocations : list Entry) (allocation : Entry)
  : Prop :=
  exists before after,
    allocations = before ++ allocation :: after /\
    Forall (fun e => e_active e = false) before /\
    e_active allocation = true.

(** The write the repair makes for a conflict record, if any. *)
Definition planned_put (item : string * ConflictRecord)
  : option (string * PutBody) :=
  (fun allocation => (item.1, allocation_data allocation))
    <$> first_active (c_allocations item.2).

Definition planned_puts (multiple : dict ConflictRecord)
  : list (string * PutBody) :=
  omap planned_put multiple.

(** How one write ends: with the exception of the session, with the
    [HTTPError] of [raise_for_status], or normally. *)
Definition put_result (cloud : Cloud) (call : string * PutBody) : Result unit :=
  match session_put_allocations cloud call.1 call.2 with
  | Ok res => raise_for_status res
  | Raise e => Raise e
  end.

(** The writes issued out of a list of planned writes: all of them up to
    and including the first that fails. *)
Fixpoint run_puts (cloud : Cloud) (calls : list (string * PutBody))
  : list (string * PutBody) * Result unit :=
  match calls with
  | [] => ([], Ok tt)
  | call :: rest =>
      match put_result cloud call with
      | Ok _ => let '(issued, r) := run_puts cloud rest in (call :: issued, r)
      | Raise e => ([call], Raise e)
      end
  end.

(** The reading of C3 as a property of one run: every planned write is
    attempted, whether or not an earlier one failed. *)
Definition repair_continues_after_failure (cloud : Cloud) (args : Args)
  : Prop :=
  forall multiple,
    outcome (classifier cloud args) = Ok multiple ->
    outcome (dump_phase cloud args multiple) = Ok tt ->
    repair args = true ->
    puts (trace (main cloud args)) = planned_puts multiple.

(** The block of report lines of one conflict record. *)
Definition report_block (item : string * ConflictRecord) : list string :=
  item.1 :: map report_line (c_allocations item.2).

Definition report_lines (multiple : dict ConflictRecord) : list string :=
  concat (map report_block multiple).

(** * Concrete clouds *)

Definition provider_A : ResourceProvider :=
  {| rp_uuid := "p1"; rp_name := "hostA" |}.
Definition provider_B : ResourceProvider :=
  {| rp_uuid := "p2"; rp_name := "hostB" |}.

(** Providers [p1] and [p2], instance [i1] allocated on both with the
    resources [r1] and [r2]; [server] is what the compute lookup of [i1]
    gives and [put] how the placement service answers a write. *)
Definition scenario_cloud (r1 r2 : Resources)
    (server : Result (option Server))
    (put : string -> PutBody -> Result (Response unit)) : Cloud :=
  {| session_get_resource_providers :=
       Ok (mkResponse 200
             {| doc_resource_providers := Some [provider_A; provider_B] |});
     session_get_allocations := fun uuid =>
       if decide (uuid = "p1") then
         Ok (mkResponse 200
               {| doc_allocations := Some [("i1", {| resources := r1 |})] |})
       else if decide (uuid = "p2") then
         Ok (mkResponse 200
               {| doc_allocations := Some [("i1", {| resources := r2 |})] |})
       else Ok (mkResponse 404 {| doc_allocations := None |});
     session_put_allocations := put;
     get_server := fun instance_uuid =>
       if decide (instance_uuid = "i1") then server else Ok None;
     open_write := fun _ => Ok tt |}.

Definition repair_args : Args :=
  {| repair := true; limit := []; output_json := None |}.

Definition vcpu (n : Z) : Allocation := {| resources := [("VCPU", n)] |}.

(** Instances [i1] and [i2] are allocated on both providers, [i3] on
    [p1] only; the compute service places [i1] on hostA and [i2] on
    hostB; [put] is how the placement service answers a write. *)
Definition three_instance_cloud
    (put : string -> PutBody -> Result (Response unit)) : Cloud :=
  {| session_get_resource_providers :=
       Ok (mkResponse 200
             {| doc_resource_providers := Some [provider_A; provider_B] |});
     session_get_allocations := fun uuid =>
       if decide (uuid = "p1") then
         Ok (mkResponse 200
               {| doc_allocations :=
                    Some [("i1", vcpu 2); ("i2", vcpu 4); ("i3", vcpu 1)] |})
       else if decide (uuid = "p2") then
         Ok (mkResponse 200
               {| doc_allocations := Some [("i1", vcpu 2); ("i2", vcpu 4)] |})
       else Ok (mkResponse 404 {| doc_allocations := None |});
     session_put_allocations := put;
     get_server := fun instance_uuid =>
       if decide (instance_uuid = "i1")
       then Ok (Some {| hypervisor_hostname := Some "hostA" |})
       else if decide (instance_uuid = "i2")
       then Ok (Some {| hypervisor_hostname := Some "hostB" |})
       else Ok None;
     open_write := fun _ => Ok tt |}.

(** The placement service refuses the write for [i1] with [409 Conflict]
    and accepts every other write. *)
Definition put_conflict_on_i1 (instance_uuid : string) (data : PutBody)
  : Result (Response unit) :=
  if decide (instance_uuid = "i1")
  then Ok (mkResponse 409 tt) else Ok (mkResponse 204 tt).

Definition put_accepts (instance_uuid : string) (data : PutBody)
  : Result (Response unit) := Ok (mkResponse 204 tt).

(** ** Responses the session returns *)




(** An endpoint that answers the reads with [300 Multiple Choices] and a
    body holding neither ['resource_providers'] nor ['allocations']; the
    session returns such a response. *)
Definition multiple_choices_cloud : Cloud :=
  {| session_get_resource_providers :=
       Ok (mkResponse 300 {| doc_resource_providers := None |});
     session_get_allocations := fun _ =>
       Ok (mkResponse 300 {| doc_allocations := None |});
     session_put_allocations := fun _ _ => Ok (mkResponse 204 tt);
     get_server := fun _ => Ok None;
     open_write := fun _ => Ok tt |}.

(** ** The placement service after a repair *)

(** The allocations of provider [uuid] once the service has accepted the
    write [call].  The service is outside the program; this follows what
    the specification says of [PUT /allocations/{instance_uuid}]: the
    instance's allocation record is replaced as a whole by the providers
    and resources of the body. *)
Definition replace_allocation (call : string * PutBody) (uuid : string)
    (allocs : dict Allocation) : dict Allocation :=
  match List.find
          (fun req => bool_decide (resource_provider_uuid req = uuid))
          (body_allocations call.2) with
  | Some req => dict_set call.1 {| resources := req_resources req |} allocs
  | None =>
      List.filter (fun item => negb (bool_decide (item.1 = call.1))) allocs
  end.

(** The cloud as a later run finds it after the writes [calls]. *)
Definition placement_after (cloud : Cloud) (calls : list (string * PutBody))
  : Cloud :=
  {| session_get_resource_providers := session_get_resource_providers cloud;
     session_get_allocations := fun uuid =>
       match session_get_allocations cloud uuid with
       | Ok res =>
           Ok (mkResponse (status_code res)
                 {| doc_allocations :=
                      fold_left (fun allocs call =>
                                   replace_allocation call uuid allocs) calls
                        <$> doc_allocations (json res) |})
       | Raise e => Raise e
       end;
     session_put_allocations := session_put_allocations cloud;
     get_server := get_server cloud;
     open_write := open_write cloud |}.

(** * Further vocabulary *)

(** ** More of the trace *)

(** The JSON exports of a trace: path and exported records. *)
Definition dumps (t : list Event) : list (string * dict ConflictRecord) :=
  omap (fun ev => match ev with EvDump p m => Some (p, m) | _ => None end) t.

(** The messages logged at [WARNING], the default level of the script. *)
Definition warnings (t : list Event) : list string :=
  omap (fun ev => match ev with EvLog WARNING msg => Some msg | _ => None end)
    t.

(** Events of the read phase and of the audit: [LOG.info] only. *)
Definition is_info (ev : Event) : Prop :=
  match ev with EvLog INFO _ => True | _ => False end.

(** What [main] does for one write: the warning, then the [PUT]. *)
Definition repair_events (call : string * PutBody) : list Event :=
  [EvLog WARNING ("setting allocation for " +:+ call.1); EvPut call.1 call.2].

(** What the JSON export does: nothing without a path or with an empty
    one, nothing when the file cannot be opened, one export otherwise. *)
Definition dump_events (cloud : Cloud) (args : Args)
    (multiple : dict ConflictRecord) : list Event :=
  match output_json args with
  | Some path =>
      if bool_decide (path = "") then []
      else match open_write cloud path with
           | Ok _ => [EvDump path multiple]
           | Raise _ => []
           end
  | None => []
  end.

(** ** More of the tally *)

(** [tally[instance_uuid][provider_uuid]], when both keys are there. *)
Definition tally_get (tally : dict (dict Allocation))
    (instance_uuid provider_uuid : string) : option Allocation :=
  dict_get instance_uuid tally ≫= dict_get provider_uuid.

(** The allocation placement lists for an instance on a provider: the
    last item under the instance's uuid (a decoded JSON object has each
    key once). *)
Definition fetched (cloud : Cloud) (instance_uuid provider_uuid : string)
  : option Allocation :=
  match fetch cloud provider_uuid with
  | Ok items => dict_get instance_uuid (reverse items)
  | Raise _ => None
  end.

(** The same lookup in the mapping view. *)
Definition view_get (m : gmap string (gmap string Allocation))
    (instance_uuid provider_uuid : string) : option Allocation :=
  m !! instance_uuid ≫= (fun allocs => allocs !! provider_uuid).

(** The last provider of a listing that has the uuid. *)
Definition last_listed (listing : list ResourceProvider) (uuid : string)
  : option ResourceProvider :=
  List.find (fun p => bool_decide (rp_uuid p = uuid)) (reverse listing).

(** The listing [main] iterates over. *)
Definition listing_of (cloud : Cloud) : Result (list ResourceProvider) :=
  match session_get_resource_providers cloud with
  | Ok res => Ok (default [] (doc_resource_providers (json res)))
  | Raise e => Raise e
  end.

(** A record with an entry marked active: a block with a ["*"] line. *)
Definition has_active (item : string * ConflictRecord) : bool :=
  existsb e_active (c_allocations item.2).

(** ** Variations of a run *)

Definition with_get_server (cloud : Cloud)
    (lookup : string -> Result (option Server)) : Cloud :=
  {| session_get_resource_providers := session_get_resource_providers cloud;
     session_get_allocations := session_get_allocations cloud;
     session_put_allocations := session_put_allocations cloud;
     get_server := lookup;
     open_write := open_write cloud |}.

Definition with_put (cloud : Cloud)
    (put : string -> PutBody -> Result (Response unit)) : Cloud :=
  {| session_get_resource_providers := session_get_resource_providers cloud;
     session_get_allocations := session_get_allocations cloud;
     session_put_allocations := put;
     get_server := get_server cloud;
     open_write := open_write cloud |}.

Definition with_open_write (cloud : Cloud)
    (open_file : string -> Result unit) : Cloud :=
  {| session_get_resource_providers := session_get_resource_providers cloud;
     session_get_allocations := session_get_allocations cloud;
     session_put_allocations := session_put_allocations cloud;
     get_server := get_server cloud;
     open_write := open_file |}.

Definition with_allocations (cloud : Cloud)
    (get : string -> Result (Response AllocationsDoc)) : Cloud :=
  {| session_get_resource_providers := session_get_resource_providers cloud;
     session_get_allocations := get;
     session_put_allocations := session_put_allocations cloud;
     get_server := get_server cloud;
     open_write := open_write cloud |}.

Definition with_repair (args : Args) (flag : bool) : Args :=
  {| repair := flag; limit := limit args; output_json := output_json args |}.

Definition with_output_json (args : Args) (path : option string) : Args :=
  {| repair := repair args; limit := limit args; output_json := path |}.

(** * Properties *)

(** ** The monad *)

Section MonadFacts.

Context {A B : Type}.

Lemma trace_bind (m : M A) (f : A -> M B) :
  trace (bind m f) =
  trace m ++ match outcome m with Ok a => trace (f a) | Raise _ => [] end.
Proof.
  destruct m as [t [a|e]]; simpl.
  - destruct (f a); reflexivity.
  - unfold trace; simpl. by rewrite app_nil_r.
Qed.

Lemma outcome_bind (m : M A) (f : A -> M B) :
  outcome (bind m f) =
  match outcome m with Ok a => outcome (f a) | Raise e => Raise e end.
Proof.
  destruct m as [t [a|e]]; simpl; [destruct (f a)|]; reflexivity.
Qed.

Lemma outcome_bind_Ok (m : M A) (f : A -> M B) (b : B) :
  outcome (bind m f) = Ok b ->
  exists a, outcome m = Ok a /\ outcome (f a) = Ok b.
Proof.
  rewrite outcome_bind. destruct (outcome m) as [a|e]; [eauto|discriminate].
Qed.

End MonadFacts.

Lemma trace_emit ev : trace (emit ev) = [ev].
Proof. done. Qed.
Lemma outcome_emit ev : outcome (emit ev) = Ok tt.
Proof. done. Qed.
Lemma trace_lift {A} (r : Result A) : trace (lift r) = [].
Proof. done. Qed.
Lemma outcome_lift {A} (r : Result A) : outcome (lift r) = r.
Proof. done. Qed.
Lemma trace_ret {A} (a : A) : trace (ret a) = [].
Proof. done. Qed.
Lemma outcome_ret {A} (a : A) : outcome (ret a) = Ok a.
Proof. done. Qed.

Create Rewrite HintDb prog.
#[export] Hint Rewrite @trace_bind @outcome_bind trace_emit outcome_emit
  @trace_lift @outcome_lift @trace_ret @outcome_ret : prog.

(** Unfolds the bookkeeping of the monad, leaving the calls in place. *)
Ltac prog_simpl :=
  unfold LOG_info, LOG_warning, print;
  repeat (progress (autorewrite with prog; cbv beta iota)).

Lemma puts_app (t t' : list Event) : puts (t ++ t') = puts t ++ puts t'.
Proof. unfold puts. apply omap_app. Qed.

Lemma stdout_app (t t' : list Event) : stdout (t ++ t') = stdout t ++ stdout t'.
Proof. unfold stdout. apply omap_app. Qed.

(** Loop invariants for [for_fold]: [I pre s] holds of the loop variables
    [s] once the items [pre] have been processed. *)
Lemma for_fold_inv {A S} (I : list A -> S -> Prop)
    (body : S -> A -> M S) (l : list A) (acc : S) :
  I [] acc ->
  (forall pre x post s s',
      l = pre ++ x :: post -> I pre s ->
      outcome (body s x) = Ok s' -> I (pre ++ [x]) s') ->
  forall s', outcome (for_fold l body acc) = Ok s' -> I l s'.
Proof.
  intros H0 Hstep.
  assert (G : forall post pre s s',
             l = pre ++ post -> I pre s ->
             outcome (for_fold post body s) = Ok s' -> I l s').
  { induction post as [|x post IH]; intros pre s s' El Hpre Hout.
    - simpl in Hout. rewrite app_nil_r in El. by simplify_eq.
    - simpl in Hout. apply outcome_bind_Ok in Hout as (s1 & Hb & Hrest).
      apply (IH (pre ++ [x]) s1 s'); [by rewrite <- app_assoc| |done].
      eapply Hstep; eauto. }
  intros s' Hout. by apply (G l [] acc s').
Qed.

(** A loop whose bodies perform no event of a kind performs none. *)
Lemma for_fold_trace {A S} (P : Event -> Prop)
    (body : S -> A -> M S) (l : list A) :
  (forall s x, Forall P (trace (body s x))) ->
  forall acc, Forall P (trace (for_fold l body acc)).
Proof.
  intros Hb. induction l as [|x l IH]; intros acc; simpl.
  - constructor.
  - rewrite trace_bind. apply Forall_app. split; [apply Hb|].
    destruct (outcome (body acc x)); [apply IH|constructor].
Qed.

Lemma silent_not_put (t : list Event) : Forall silent t -> Forall not_put t.
Proof. intros H. eapply Forall_impl; [exact H|]. by intros []. Qed.

Lemma puts_nil (t : list Event) : Forall not_put t -> puts t = [].
Proof.
  unfold puts. induction 1 as [|ev t Hev _ IH]; [done|].
  destruct ev; simpl; done.
Qed.

Lemma stdout_nil (t : list Event) : Forall silent t -> stdout t = [].
Proof.
  unfold stdout. induction 1 as [|ev t Hev _ IH]; [done|].
  destruct ev; simpl; done.
Qed.

(** ** Dictionaries *)

Section DictFacts.

Context {V : Type}.
Implicit Types (d : dict V) (k : string) (v : V).

Lemma dict_get_elem_of k v d : dict_get k d = Some v -> (k, v) ∈ d.
Proof.
  induction d as [|[k' v'] d IH]; simpl; [done|].
  destruct (decide (k = k')) as [->|].
  - intros [= ->]. left.
  - intros H. right. auto.
Qed.

Lemma dict_get_None k d : dict_get k d = None <-> k ∉ d.*1.
Proof.
  induction d as [|[k' v'] d IH]; simpl.
  - split; [intros _; apply not_elem_of_nil|done].
  - rewrite not_elem_of_cons. destruct (decide (k = k')); [|tauto].
    split; [done|tauto].
Qed.

Lemma dict_get_is_Some k d : is_Some (dict_get k d) <-> k ∈ d.*1.
Proof.
  rewrite <- not_eq_None_Some, dict_get_None.
  destruct (decide (k ∈ d.*1)); tauto.
Qed.

Lemma elem_of_dict_get k v d :
  NoDup d.*1 -> (k, v) ∈ d -> dict_get k d = Some v.
Proof.
  induction d as [|[k' v'] d IH]; simpl; intros Hnd Hin.
  - by apply elem_of_nil in Hin.
  - apply NoDup_cons in Hnd as [Hk' Hnd].
    apply elem_of_cons in Hin as [[= -> ->]|Hin].
    + by rewrite decide_True.
    + rewrite decide_False; [auto|].
      intros ->. apply Hk'. apply list_elem_of_fmap. by exists (k', v).
Qed.

Lemma dict_mem_true k d : dict_mem k d = true <-> k ∈ d.*1.
Proof.
  unfold dict_mem. rewrite <- dict_get_is_Some.
  destruct (dict_get k d); split; (done || by intros []).
Qed.

Lemma dict_get_set k k' v d :
  dict_get k' (dict_set k v d) =
  if decide (k = k') then Some v else dict_get k' d.
Proof.
  induction d as [|[k0 v0] d IH]; simpl.
  - destruct (decide (k' = k)), (decide (k = k')); congruence.
  - destruct (decide (k = k0)) as [->|]; simpl.
    + destruct (decide (k' = k0)), (decide (k0 = k')); congruence.
    + rewrite IH.
      destruct (decide (k' = k0)), (decide (k = k')); congruence.
Qed.

Lemma dict_set_fresh k v d : k ∉ d.*1 -> dict_set k v d = d ++ [(k, v)].
Proof.
  induction d as [|[k0 v0] d IH]; simpl; [done|].
  rewrite not_elem_of_cons. intros [Hne Hd].
  rewrite decide_False by done. by rewrite IH.
Qed.

Lemma dict_set_keys k v d :
  (dict_set k v d).*1 = if decide (k ∈ d.*1) then d.*1 else d.*1 ++ [k].
Proof.
  induction d as [|[k0 v0] d IH].
  - destruct (decide (k ∈ ([] : dict V).*1)) as [Hin|]; [|done].
    by apply elem_of_nil in Hin.
  - change (((k0, v0) :: d).*1) with (k0 :: d.*1). simpl dict_set.
    destruct (decide (k = k0)) as [->|Hne].
    + destruct (decide (k0 ∈ k0 :: d.*1)) as [|Hn]; [done|].
      destruct Hn. left.
    + change (((k0, v0) :: dict_set k v d).*1)
        with (k0 :: (dict_set k v d).*1).
      rewrite IH.
      destruct (decide (k ∈ d.*1)) as [Hin|Hin],
               (decide (k ∈ k0 :: d.*1)) as [Hin'|Hin']; try done.
      * destruct Hin'. by right.
      * apply elem_of_cons in Hin' as [?|?]; done.
Qed.

Lemma dict_set_NoDup k v d : NoDup d.*1 -> NoDup (dict_set k v d).*1.
Proof.
  intros Hnd. rewrite dict_set_keys. destruct (decide (k ∈ d.*1)); [done|].
  apply NoDup_app. repeat split; [done| |apply NoDup_singleton].
  intros x Hx Hx'. apply list_elem_of_singleton in Hx'. by subst.
Qed.

Lemma elem_of_dict_set_keys k k' v d :
  k' ∈ (dict_set k v d).*1 <-> k' = k \/ k' ∈ d.*1.
Proof.
  rewrite dict_set_keys. destruct (decide (k ∈ d.*1)).
  - split; [tauto|]. intros [->|]; done.
  - rewrite elem_of_app, list_elem_of_singleton. tauto.
Qed.

Lemma dict_alter_keys (f : V -> V) k d : (dict_alter f k d).*1 = d.*1.
Proof.
  induction d as [|[k0 v0] d IH]; simpl; [done|].
  destruct (decide (k = k0)); simpl; [done|]. f_equal. exact IH.
Qed.

Lemma dict_get_alter (f : V -> V) k k' d :
  dict_get k' (dict_alter f k d) =
  if decide (k = k') then f <$> dict_get k d else dict_get k' d.
Proof.
  induction d as [|[k0 v0] d IH]; simpl.
  - by destruct (decide (k = k')).
  - destruct (decide (k = k0)) as [->|]; simpl.
    + destruct (decide (k' = k0)), (decide (k0 = k')); simpl; congruence.
    + rewrite IH.
      destruct (decide (k' = k0)), (decide (k = k')); simpl; congruence.
Qed.

Lemma dict_alter_app_fresh (f : V -> V) k v d :
  k ∉ d.*1 -> dict_alter f k (d ++ [(k, v)]) = d ++ [(k, f v)].
Proof.
  induction d as [|[k0 v0] d IH]; simpl.
  - intros _. by rewrite decide_True.
  - rewrite not_elem_of_cons. intros [Hne Hd].
    rewrite decide_False by done. by rewrite IH.
Qed.

Lemma dict_map_lookup k d : dict_map d !! k = dict_get k d.
Proof.
  unfold dict_map. induction d as [|[k0 v0] d IH]; simpl.
  - apply lookup_empty.
  - rewrite lookup_insert. rewrite IH.
    destruct (decide (k0 = k)), (decide (k = k0)); congruence.
Qed.

Lemma dict_map_set k v d : dict_map (dict_set k v d) = <[k := v]> (dict_map d).
Proof.
  apply map_eq. intros k'.
  by rewrite lookup_insert, !dict_map_lookup, dict_get_set.
Qed.

Lemma dict_map_alter (f : V -> V) k d :
  dict_map (dict_alter f k d) = alter f k (dict_map d).
Proof.
  apply map_eq. intros k'.
  by rewrite lookup_alter, !dict_map_lookup, dict_get_alter.
Qed.

End DictFacts.

(** How a loop ends: normally, with the invariant at the whole list, or
    with the exception of the first body that raised. *)
Lemma for_fold_cases {A S} (I : list A -> S -> Prop)
    (body : S -> A -> M S) (l : list A) (acc : S) :
  I [] acc ->
  (forall pre x post s s',
      l = pre ++ x :: post -> I pre s ->
      outcome (body s x) = Ok s' -> I (pre ++ [x]) s') ->
  (exists s', outcome (for_fold l body acc) = Ok s' /\ I l s') \/
  (exists pre x post s e,
      l = pre ++ x :: post /\ I pre s /\
      outcome (body s x) = Raise e /\
      outcome (for_fold l body acc) = Raise e).
Proof.
  intros H0 Hstep.
  assert (G : forall post pre s,
             l = pre ++ post -> I pre s ->
             (exists s', outcome (for_fold post body s) = Ok s' /\ I l s') \/
             (exists pre' x post' s0 e,
                 l = pre' ++ x :: post' /\ I pre' s0 /\
                 outcome (body s0 x) = Raise e /\
                 outcome (for_fold post body s) = Raise e)).
  { induction post as [|x post IH]; intros pre s El Hpre.
    - left. exists s. rewrite app_nil_r in El. by subst.
    - simpl. rewrite outcome_bind.
      destruct (outcome (body s x)) as [s1|e] eqn:Hb.
      + apply (IH (pre ++ [x]) s1); [by rewrite <- app_assoc|].
        eapply Hstep; eauto.
      + right. by exists pre, x, post, s, e. }
  by apply (G l [] acc).
Qed.

(** ** The tally *)

Lemma read_provider_outcome cloud providers tally provider :
  outcome (read_provider cloud (providers, tally) provider) =
  match fetch cloud (rp_uuid provider) with
  | Ok items =>
      Ok (dict_set (rp_uuid provider) provider providers,
          tally_provider (rp_uuid provider) items tally)
  | Raise e => Raise e
  end.
Proof.
  unfold read_provider, get_resource_provider_allocations, fetch.
  destruct (session_get_allocations cloud (rp_uuid provider)) as [res|e];
    [|done].
  simpl. by destruct (getitem_allocations (json res)).
Qed.

Lemma read_provider_trace cloud st provider :
  trace (read_provider cloud st provider) = [].
Proof.
  destruct st as [providers tally].
  unfold read_provider, get_resource_provider_allocations.
  destruct (session_get_allocations cloud (rp_uuid provider)) as [res|e];
    [|done].
  simpl. by destruct (getitem_allocations (json res)).
Qed.

Lemma dict_get_tally_add i u a tally j :
  dict_get j (tally_add i u a tally) =
  if decide (i = j)
  then Some (dict_set u a (default [] (dict_get i tally)))
  else dict_get j tally.
Proof.
  unfold tally_add, dict_mem.
  destruct (dict_get i tally) as [old|] eqn:Hi; simpl;
    rewrite dict_get_alter, ?dict_get_set, ?Hi;
    destruct (decide (i = j)); simpl; try done.
  by rewrite decide_True.
Qed.

Lemma tally_add_NoDup i u a tally :
  NoDup tally.*1 -> NoDup (tally_add i u a tally).*1.
Proof.
  intros Hnd. unfold tally_add. rewrite dict_alter_keys.
  destruct (dict_mem i tally); simpl; [done|by apply dict_set_NoDup].
Qed.

Lemma read_inv_empty : read_inv [] [].
Proof. split; try done; constructor. Qed.

Lemma read_inv_tally_add providers tally i u a :
  u ∈ providers.*1 -> read_inv providers tally ->
  read_inv providers (tally_add i u a tally).
Proof.
  intros Hu [H1 H2 H3 H4 H5]. split; [done|done| | |].
  - by apply tally_add_NoDup.
  - intros j allocs. rewrite dict_get_tally_add.
    destruct (decide (i = j)) as [->|]; [|apply H4].
    intros [= <-]. apply dict_set_NoDup.
    destruct (dict_get j tally) eqn:Hj; simpl; [eauto|constructor].
  - intros j allocs u'. rewrite dict_get_tally_add.
    destruct (decide (i = j)) as [->|]; [|apply H5].
    intros [= <-]. rewrite elem_of_dict_set_keys. intros [->|Hin]; [done|].
    destruct (dict_get j tally) eqn:Hj; simpl in Hin; [eauto|].
    by apply elem_of_nil in Hin.
Qed.

Lemma read_inv_tally_provider providers u items tally :
  u ∈ providers.*1 -> read_inv providers tally ->
  read_inv providers (tally_provider u items tally).
Proof.
  intros Hu. unfold tally_provider, dict_items.
  revert tally. induction items as [|[i a] items IH]; intros tally Hinv.
  - done.
  - simpl. apply IH. by apply read_inv_tally_add.
Qed.

Lemma read_inv_provider providers tally provider :
  read_inv providers tally ->
  read_inv (dict_set (rp_uuid provider) provider providers) tally.
Proof.
  intros [H1 H2 H3 H4 H5]. split; [| |done|done|].
  - by apply dict_set_NoDup.
  - intros u p. rewrite dict_get_set.
    destruct (decide (rp_uuid provider = u)); [congruence|apply H2].
  - intros i allocs u Hi Hu. apply elem_of_dict_set_keys. right. eauto.
Qed.

Lemma read_loop_inv cloud listing providers tally :
  outcome (for_fold listing (read_provider cloud) ([], [])) =
    Ok (providers, tally) ->
  read_inv providers tally.
Proof.
  intros Hout.
  apply (for_fold_inv (fun _ st => read_inv st.1 st.2)) in Hout;
    [done|apply read_inv_empty|].
  intros pre p post [ps t] [ps' t'] _ Hinv. simpl in Hinv.
  rewrite read_provider_outcome.
  destruct (fetch cloud (rp_uuid p)) as [items|e]; [|done].
  intros [= <- <-]. simpl.
  apply read_inv_tally_provider.
  - apply elem_of_dict_set_keys. by left.
  - by apply read_inv_provider.
Qed.

Lemma read_phase_outcome cloud :
  outcome (read_phase cloud) =
  match session_get_resource_providers cloud with
  | Ok res =>
      outcome (for_fold (default [] (doc_resource_providers (json res)))
                 (read_provider cloud) ([], []))
  | Raise e => Raise e
  end.
Proof.
  unfold read_phase, list_resource_providers.
  rewrite outcome_bind. simpl.
  destruct (session_get_resource_providers cloud) as [res|e]; [|done].
  simpl. by destruct (for_fold _ _ _).
Qed.

Lemma read_phase_inv cloud providers tally :
  outcome (read_phase cloud) = Ok (providers, tally) ->
  read_inv providers tally.
Proof.
  rewrite read_phase_outcome.
  destruct (session_get_resource_providers cloud); [|done].
  apply read_loop_inv.
Qed.

(** ** The audit *)

Lemma classify_trace providers i host multiple item :
  trace (classify providers i host multiple item) = [].
Proof.
  destruct item as [u a]. unfold classify, getitem.
  by destruct (dict_get u providers).
Qed.

Lemma classify_outcome providers i host multiple u a :
  outcome (classify providers i host multiple (u, a)) =
  match dict_get u providers with
  | Some provider =>
      Ok (append_entry i
            {| e_provider := provider;
               e_active := if decide (Some (rp_name provider) = host)
                           then true else false;
               e_allocation := a |} multiple)
  | None => Raise (KeyError u)
  end.
Proof. unfold classify, getitem. by destruct (dict_get u providers). Qed.

Lemma classify_loop providers i host items :
  forall multiple r,
    i ∉ multiple.*1 ->
    match outcome (for_fold items (classify providers i host)
                     (multiple ++ [(i, r)])) with
    | Ok multiple' =>
        exists entries,
          multiple' =
            multiple ++
            [(i, {| c_uuid := c_uuid r; c_active := c_active r;
                    c_allocations := c_allocations r ++ entries |})] /\
          Forall2 (entry_rel providers host) entries items
    | Raise e =>
        exists u, u ∈ items.*1 /\ (u ∉ providers.*1) /\ e = KeyError u
    end.
Proof.
  induction items as [|[u a] items IH]; intros multiple r Hfresh.
  - simpl. exists []. rewrite app_nil_r. split; [by destruct r|constructor].
  - cbn [for_fold]. rewrite outcome_bind, classify_outcome.
    destruct (dict_get u providers) as [p|] eqn:Hu.
    + unfold append_entry. rewrite dict_alter_app_fresh by done.
      specialize (IH multiple
        {| c_uuid := c_uuid r; c_active := c_active r;
           c_allocations := c_allocations r ++
             [{| e_provider := p;
                 e_active := if decide (Some (rp_name p) = host)
                             then true else false;
                 e_allocation := a |}] |} Hfresh).
      destruct (outcome (for_fold items _ _)) as [multiple'|e].
      * destruct IH as (entries & -> & Hall). simpl.
        eexists (_ :: entries). rewrite <- app_assoc. split; [done|].
        constructor; [|done]. repeat split; simpl; try done.
        all: by destruct (decide (Some (rp_name p) = host)).
      * destruct IH as (u' & Hin & Hnot & ->). exists u'.
        split; [by right|done].
    + exists u. split; [left|]. split; [by apply dict_get_None|done].
Qed.

Lemma audit_instance_trace cloud args providers multiple item :
  Forall silent (trace (audit_instance cloud args providers multiple item)).
Proof.
  destruct item as [i allocs]. unfold audit_instance.
  destruct (_ && _); [constructor|].
  destruct (bool_decide _); [|constructor].
  prog_simpl. constructor; [done|].
  destruct (get_server cloud i) as [instance|e]; [|constructor].
  apply for_fold_trace. intros s x. rewrite classify_trace. constructor.
Qed.

Lemma audit_phase_trace cloud args providers tally :
  Forall silent (trace (audit_phase cloud args providers tally)).
Proof.
  unfold audit_phase. prog_simpl. constructor; [done|].
  apply for_fold_trace. intros. apply audit_instance_trace.
Qed.

(** One step of the audit loop, on a key not seen before. *)
Lemma audit_instance_outcome cloud args providers multiple i allocs :
  i ∉ multiple.*1 ->
  match outcome (audit_instance cloud args providers multiple (i, allocs)) with
  | Ok multiple' =>
      if selected args (i, allocs)
      then exists info,
          multiple' = multiple ++ [(i, info)] /\
          record_rel cloud providers (i, info) (i, allocs)
      else multiple' = multiple
  | Raise e =>
      selected args (i, allocs) = true /\
      (get_server cloud i = Raise e \/
       exists u, u ∈ allocs.*1 /\ (u ∉ providers.*1) /\ e = KeyError u)
  end.
Proof.
  intros Hfresh.
  assert (Hsel : selected args (i, allocs) =
                 negb (negb (bool_decide (limit args = []))
                       && negb (bool_decide (i ∈ limit args)))
                 && bool_decide (1 < dict_len allocs)%nat).
  { unfold selected. cbn [fst snd].
    by destruct (bool_decide (limit args = [])),
                (bool_decide (i ∈ limit args)). }
  rewrite Hsel. unfold audit_instance.
  destruct (negb (bool_decide (limit args = []))
            && negb (bool_decide (i ∈ limit args))); [done|].
  destruct (bool_decide (1 < dict_len allocs)%nat); [|done].
  cbn [negb andb]. prog_simpl.
  destruct (get_server cloud i) as [instance|e] eqn:Hsrv; [|by auto].
  rewrite dict_set_fresh by done.
  pose proof (classify_loop providers i (host_of instance) allocs multiple
                {| c_uuid := i; c_active := host_of instance;
                   c_allocations := [] |} Hfresh) as Hloop.
  unfold dict_items. fold (host_of instance).
  destruct (outcome (for_fold allocs _ _)) as [multiple'|e].
  - destruct Hloop as (entries & -> & Hall). eexists. split; [done|].
    repeat split; simpl; eauto.
  - destruct Hloop as (u & ? & ? & ->). split; [done|]. right. by exists u.
Qed.

Lemma record_rel_keys cloud providers multiple items :
  Forall2 (record_rel cloud providers) multiple items ->
  multiple.*1 = items.*1.
Proof.
  induction 1 as [|x y l k Hxy _ IH]; [done|].
  destruct Hxy as [Hk _]. rewrite !fmap_cons. by rewrite Hk, IH.
Qed.

(** The audit as a whole: in order, one record for each selected item of
    the tally; or the exception of the first lookup that failed. *)
Lemma audit_phase_cases cloud args providers tally :
  NoDup tally.*1 ->
  match outcome (audit_phase cloud args providers tally) with
  | Ok multiple =>
      Forall2 (record_rel cloud providers) multiple
        (filter (fun item => selected args item) tally)
  | Raise e =>
      exists i allocs,
        (i, allocs) ∈ tally /\ selected args (i, allocs) = true /\
        (get_server cloud i = Raise e \/
         exists u, u ∈ allocs.*1 /\ (u ∉ providers.*1) /\ e = KeyError u)
  end.
Proof.
  intros Hnd. unfold audit_phase. prog_simpl. unfold dict_items.
  assert (Hfresh : forall pre i allocs post (s : dict ConflictRecord),
             tally = pre ++ (i, allocs) :: post ->
             Forall2 (record_rel cloud providers) s
               (filter (fun item => selected args item) pre) ->
             i ∉ s.*1).
  { intros pre i allocs post s El Hs.
    rewrite (record_rel_keys _ _ _ _ Hs). intros Hin.
    apply list_elem_of_fmap in Hin as ([i' a'] & Ei & Hin). simpl in Ei.
    subst i'. apply list_elem_of_filter in Hin as [_ Hin].
    rewrite El, fmap_app in Hnd. apply NoDup_app in Hnd as (_ & Hdis & _).
    apply (Hdis i); [by apply (list_elem_of_fmap_2 fst _ (i, a'))|].
    simpl. left. }
  pose proof (for_fold_cases
              (fun pre (multiple : dict ConflictRecord) =>
                 Forall2 (record_rel cloud providers) multiple
                   (filter (fun item => selected args item) pre))
              (audit_instance cloud args providers) tally []) as Hcases.
  destruct Hcases
    as [(multiple & Eo & Hall)
       |(pre & [i allocs] & post & s & e & El & Hs & Hb & Eo)].
  - constructor.
  - intros pre [i allocs] post s s' El Hs Hb.
    pose proof (audit_instance_outcome cloud args providers s i allocs
                  (Hfresh _ _ _ _ _ El Hs)) as Hstep.
    rewrite Hb in Hstep. rewrite filter_app.
    destruct (selected args (i, allocs)) eqn:Hsel.
    + destruct Hstep as (info & -> & Hrel).
      apply Forall2_app; [done|].
      rewrite filter_cons_True by (by apply Is_true_true).
      rewrite filter_nil. by constructor.
    + subst s'. rewrite filter_cons_False by (by apply Is_true_false).
      rewrite filter_nil. by rewrite app_nil_r.
  - by rewrite Eo.
  - rewrite Eo.
    pose proof (audit_instance_outcome cloud args providers s i allocs
                  (Hfresh _ _ _ _ _ El Hs)) as Hstep.
    rewrite Hb in Hstep. destruct Hstep as [Hsel Hwhy].
    exists i, allocs. split; [|done].
    rewrite El. apply elem_of_app. right. left.
Qed.

(** ** Report and repair *)

Lemma set_allocation_spec cloud i allocation :
  trace (set_allocation cloud i allocation) =
    [EvPut i (allocation_data allocation)] /\
  outcome (set_allocation cloud i allocation) =
    put_result cloud (i, allocation_data allocation).
Proof.
  unfold set_allocation, put_result. cbn [fst snd]. prog_simpl.
  destruct (session_put_allocations cloud i (allocation_data allocation));
    by prog_simpl.
Qed.

Lemma repair_scan_spec cloud i allocations :
  puts (trace (repair_scan cloud i allocations)) =
    match first_active allocations with
    | Some allocation => [(i, allocation_data allocation)]
    | None => []
    end /\
  stdout (trace (repair_scan cloud i allocations)) = [] /\
  outcome (repair_scan cloud i allocations) =
    match first_active allocations with
    | Some allocation => put_result cloud (i, allocation_data allocation)
    | None => Ok tt
    end.
Proof.
  unfold first_active.
  induction allocations as [|allocation rest IH]; [done|].
  cbn [repair_scan find]. destruct (e_active allocation); [|exact IH].
  destruct (set_allocation_spec cloud i allocation) as [Ht Ho].
  prog_simpl. by rewrite Ht, Ho.
Qed.

Lemma planned_puts_cons i info multiple :
  planned_puts ((i, info) :: multiple) =
  match first_active (c_allocations info) with
  | Some allocation => (i, allocation_data allocation) :: planned_puts multiple
  | None => planned_puts multiple
  end.
Proof.
  unfold planned_puts. simpl. unfold planned_put at 1. simpl.
  by destruct (first_active (c_allocations info)).
Qed.

Lemma repair_loop_spec cloud multiple :
  puts (trace (for_each (dict_items multiple) (repair_instance cloud))) =
    (run_puts cloud (planned_puts multiple)).1 /\
  stdout (trace (for_each (dict_items multiple) (repair_instance cloud))) =
    [] /\
  outcome (for_each (dict_items multiple) (repair_instance cloud)) =
    (run_puts cloud (planned_puts multiple)).2.
Proof.
  unfold dict_items.
  induction multiple as [|[i info] multiple (IHp & IHs & IHo)]; [done|].
  rewrite planned_puts_cons. cbn [for_each].
  change (repair_instance cloud (i, info))
    with (repair_scan cloud i (c_allocations info)).
  destruct (repair_scan_spec cloud i (c_allocations info)) as (Hp & Hs & Ho).
  prog_simpl. rewrite puts_app, stdout_app, Hp, Hs, Ho.
  destruct (first_active (c_allocations info)) as [allocation|].
  - cbn [run_puts].
    destruct (put_result cloud (i, allocation_data allocation)) as [[]|e].
    + rewrite IHp, IHs, IHo. by destruct (run_puts cloud _).
    + by rewrite !app_nil_r.
  - by rewrite IHp, IHs, IHo.
Qed.

Lemma report_phase_spec multiple :
  puts (trace (report_phase multiple)) = [] /\
  stdout (trace (report_phase multiple)) = report_lines multiple /\
  outcome (report_phase multiple) = Ok tt.
Proof.
  unfold report_phase, dict_items, report_lines.
  assert (Hblock : forall entries,
             let m := for_each entries
                        (fun allocation =>
                           emit (EvPrint (report_line allocation))) in
             puts (trace m) = [] /\
             stdout (trace m) = map report_line entries /\
             outcome m = Ok tt).
  { intros entries. induction entries as [|e entries (IHp & IHs & IHo)];
      [done|].
    cbn [for_each map]. prog_simpl.
    by rewrite puts_app, stdout_app, IHp, IHs, IHo. }
  induction multiple as [|[i info] multiple (IHp & IHs & IHo)]; [done|].
  cbn [for_each map concat].
  change (report_instance (i, info))
    with (emit (EvPrint i) ;;
          for_each (c_allocations info)
            (fun allocation => emit (EvPrint (report_line allocation)))).
  destruct (Hblock (c_allocations info)) as (Hp & Hs & Ho).
  prog_simpl.
  by rewrite Ho, !puts_app, !stdout_app, Hp, Hs, IHp, IHs, IHo.
Qed.

Lemma repair_phase_spec cloud args multiple :
  puts (trace (repair_phase cloud args multiple)) =
    (if repair args then (run_puts cloud (planned_puts multiple)).1 else []) /\
  stdout (trace (repair_phase cloud args multiple)) = [] /\
  outcome (repair_phase cloud args multiple) =
    (if repair args then (run_puts cloud (planned_puts multiple)).2 else Ok tt).
Proof.
  unfold repair_phase. destruct (repair args); [|done].
  apply repair_loop_spec.
Qed.

Lemma read_phase_trace cloud : Forall silent (trace (read_phase cloud)).
Proof.
  unfold read_phase, list_resource_providers. prog_simpl.
  constructor; [done|]. rewrite app_nil_l.
  destruct (session_get_resource_providers cloud) as [res|e]; prog_simpl;
    [|constructor].
  apply for_fold_trace. intros st p. rewrite read_provider_trace. constructor.
Qed.

Lemma classifier_trace cloud args :
  Forall silent (trace (classifier cloud args)).
Proof.
  unfold classifier. prog_simpl. apply Forall_app.
  split; [apply read_phase_trace|].
  destruct (outcome (read_phase cloud)) as [[providers tally]|e];
    [apply audit_phase_trace|constructor].
Qed.

Lemma classifier_outcome cloud args :
  outcome (classifier cloud args) =
  match outcome (read_phase cloud) with
  | Ok (providers, tally) => outcome (audit_phase cloud args providers tally)
  | Raise e => Raise e
  end.
Proof.
  unfold classifier. prog_simpl.
  by destruct (outcome (read_phase cloud)) as [[providers tally]|e].
Qed.

Lemma dump_phase_trace cloud args multiple :
  Forall silent (trace (dump_phase cloud args multiple)).
Proof.
  unfold dump_phase. destruct (output_json args) as [path|]; [|constructor].
  destruct (bool_decide (path = "")); [constructor|]. prog_simpl.
  destruct (open_write cloud path); by repeat constructor.
Qed.

(** What a run prints, writes and returns, phase by phase. *)
Lemma main_spec cloud args :
  let run := main cloud args in
  match outcome (classifier cloud args) with
  | Ok multiple =>
      match outcome (dump_phase cloud args multiple) with
      | Ok _ =>
          stdout (trace run) = report_lines multiple /\
          puts (trace run) =
            (if repair args
             then (run_puts cloud (planned_puts multiple)).1 else []) /\
          outcome run =
            (if repair args
             then (run_puts cloud (planned_puts multiple)).2 else Ok tt)
      | Raise e =>
          stdout (trace run) = [] /\ puts (trace run) = [] /\
          outcome run = Raise e
      end
  | Raise e =>
      stdout (trace run) = [] /\ puts (trace run) = [] /\ outcome run = Raise e
  end.
Proof.
  cbv zeta. unfold main.
  pose proof (classifier_trace cloud args) as Hc.
  rewrite trace_bind, outcome_bind, stdout_app, puts_app,
    (stdout_nil _ Hc), (puts_nil _ (silent_not_put _ Hc)), !app_nil_l.
  destruct (outcome (classifier cloud args)) as [multiple|e]; [|done].
  pose proof (dump_phase_trace cloud args multiple) as Hd.
  rewrite trace_bind, outcome_bind, stdout_app, puts_app,
    (stdout_nil _ Hd), (puts_nil _ (silent_not_put _ Hd)), !app_nil_l.
  destruct (outcome (dump_phase cloud args multiple)) as [[]|e]; [|done].
  destruct (report_phase_spec multiple) as (Hp & Hs & Ho).
  destruct (repair_phase_spec cloud args multiple) as (Hp' & Hs' & Ho').
  rewrite trace_bind, outcome_bind, Ho, stdout_app, puts_app,
    Hp, Hs, Hp', Hs', Ho'.
  by rewrite app_nil_r.
Qed.

Lemma run_puts_prefix cloud calls :
  (run_puts cloud calls).1 `prefix_of` calls.
Proof.
  induction calls as [|call rest IH]; [done|]. cbn [run_puts].
  destruct (put_result cloud call).
  - destruct (run_puts cloud rest) as [issued r]. by apply prefix_cons.
  - by exists rest.
Qed.

Lemma run_puts_Ok cloud calls :
  (run_puts cloud calls).2 = Ok tt -> (run_puts cloud calls).1 = calls.
Proof.
  induction calls as [|call rest IH]; [done|]. cbn [run_puts].
  destruct (put_result cloud call); [|done].
  destruct (run_puts cloud rest) as [issued r]. simpl in *.
  intros Hr. by rewrite IH.
Qed.

Lemma run_puts_fail cloud pre call post e :
  Forall (fun c => put_result cloud c = Ok tt) pre ->
  put_result cloud call = Raise e ->
  run_puts cloud (pre ++ call :: post) = (pre ++ [call], Raise e).
Proof.
  intros Hpre Hcall. induction Hpre as [|c pre Hc _ IH]; cbn [run_puts app].
  - by rewrite Hcall.
  - by rewrite Hc, IH.
Qed.

(** ** The two-provider scenario *)

(** C1.  In the scenario with providers p1 "hostA" and p2 "hostB",
    instance "i1" allocated on both and the compute lookup of "i1"
    answering "hostA", the classifier yields one record for "i1" whose
    p1 entry is active and whose p2 entry is inactive, and the run with
    [--repair] issues exactly one write, for "i1", whose body names p1 as
    its only resource provider and carries p1's resources; this holds
    whatever the resources are and however the service answers. *)
Theorem scenario_hostA_repairs_p1 (r1 r2 : Resources)
    (put : string -> PutBody -> Result (Response unit)) :
  let cloud :=
    scenario_cloud r1 r2 (Ok (Some {| hypervisor_hostname := Some "hostA" |}))
      put in
  outcome (classifier cloud repair_args) =
    Ok [("i1",
         {| c_uuid := "i1";
            c_active := Some "hostA";
            c_allocations :=
              [ {| e_provider := provider_A; e_active := true;
                   e_allocation := {| resources := r1 |} |};
                {| e_provider := provider_B; e_active := false;
                   e_allocation := {| resources := r2 |} |} ] |})] /\
  puts (trace (main cloud repair_args)) =
    [("i1",
      {| body_allocations :=
           [ {| resource_provider_uuid := "p1"; req_resources := r1 |} ] |})].
Proof.
  intros cloud.
  assert (Hc : outcome (classifier cloud repair_args) =
               Ok [("i1",
                    {| c_uuid := "i1";
                       c_active := Some "hostA";
                       c_allocations :=
                         [ {| e_provider := provider_A; e_active := true;
                              e_allocation := {| resources := r1 |} |};
                           {| e_provider := provider_B; e_active := false;
                              e_allocation := {| resources := r2 |} |} ] |})])
    by reflexivity.
  split; [exact Hc|].
  pose proof (main_spec cloud repair_args) as Hmain. cbv zeta in Hmain.
  rewrite Hc in Hmain. destruct Hmain as (_ & -> & _).
  cbn [repair repair_args]. rewrite planned_puts_cons.
  cbn [first_active c_allocations find e_active planned_puts omap list_omap].
  cbn [run_puts].
  by destruct (put_result cloud _).
Qed.

(** ** Provider lookups of the classifier *)

(** C10.  After the read phase, every provider uuid that is a key of
    some instance's tally entry is a key of [providers], filed with the
    provider of that uuid, so [providers[provider_uuid]] in the
    classifier cannot raise; the only way the audit of that tally can
    fail is an exception of the compute lookup. *)
Theorem provider_lookup_never_fails (cloud : Cloud)
    (providers : dict ResourceProvider) (tally : dict (dict Allocation)) :
  outcome (read_phase cloud) = Ok (providers, tally) ->
  (forall instance_uuid allocations provider_uuid allocation,
      (instance_uuid, allocations) ∈ dict_items tally ->
      (provider_uuid, allocation) ∈ dict_items allocations ->
      exists provider,
        getitem provider_uuid providers = Ok provider /\
        rp_uuid provider = provider_uuid) /\
  (forall args e,
      outcome (audit_phase cloud args providers tally) = Raise e ->
      exists instance_uuid, get_server cloud instance_uuid = Raise e).
Proof.
  intros Hread. pose proof (read_phase_inv _ _ _ Hread) as Hinv.
  destruct Hinv as [H1 H2 H3 H4 H5].
  assert (Hknown : forall i allocs u,
             (i, allocs) ∈ tally -> u ∈ allocs.*1 -> u ∈ providers.*1).
  { intros i allocs u Hi Hu. apply (H5 i allocs u); [|done].
    by apply elem_of_dict_get. }
  split.
  - unfold dict_items. intros i allocs u a Hi Hu.
    assert (Hin : u ∈ providers.*1).
    { apply (Hknown i allocs u Hi).
      by apply (list_elem_of_fmap_2 fst _ (u, a)). }
    apply dict_get_is_Some in Hin as [p Hp]. exists p.
    unfold getitem. rewrite Hp. split; [done|by apply H2].
  - intros args e Hout.
    pose proof (audit_phase_cases cloud args providers tally H3) as Hcases.
    rewrite Hout in Hcases.
    destruct Hcases as (i & allocs & Hi & _ & [Hsrv|(u & Hu & Hnot & _)]).
    + by exists i.
    + destruct Hnot. by apply (Hknown i allocs u).
Qed.

Lemma provider_lookup_never_fails_witness :
  exists provider,
    getitem "p2" [("p1", provider_A); ("p2", provider_B)] = Ok provider /\
    rp_uuid provider = "p2".
Proof.
  apply (proj1 (provider_lookup_never_fails
                  (scenario_cloud [("VCPU", 2)] [("VCPU", 4)] (Ok None)
                     (fun _ _ => Ok (mkResponse 204 tt)))
                  [("p1", provider_A); ("p2", provider_B)]
                  [("i1", [("p1", {| resources := [("VCPU", 2)] |});
                           ("p2", {| resources := [("VCPU", 4)] |})])]
                  eq_refl)
           "i1" [("p1", {| resources := [("VCPU", 2)] |});
                 ("p2", {| resources := [("VCPU", 4)] |})]
           "p2" {| resources := [("VCPU", 4)] |}).
  - left.
  - right. left.
Defined.

(** ** The classifier as a whole *)

Lemma filter_keys_NoDup {V} (P : string * V -> Prop)
    `{forall x, Decision (P x)} (d : dict V) :
  NoDup d.*1 -> NoDup (filter P d).*1.
Proof.
  intros Hnd. eapply sublist_NoDup; [exact Hnd|].
  apply fmap_sublist, sublist_filter.
Qed.

Lemma Forall2_elem_of_left {A B} (R : A -> B -> Prop) l k x :
  Forall2 R l k -> x ∈ l -> exists y, y ∈ k /\ R x y.
Proof.
  induction 1 as [|x' y' l k Hxy _ IH]; intros Hin.
  - by apply elem_of_nil in Hin.
  - apply elem_of_cons in Hin as [->|Hin].
    + exists y'. split; [left|done].
    + destruct (IH Hin) as (y & Hy & HR). exists y. split; [by right|done].
Qed.

(** A successful classifier run: the tally it was computed from and the
    records it holds. *)
Lemma classifier_Ok cloud args multiple :
  outcome (classifier cloud args) = Ok multiple ->
  exists providers tally,
    outcome (read_phase cloud) = Ok (providers, tally) /\
    outcome (audit_phase cloud args providers tally) = Ok multiple /\
    read_inv providers tally /\
    Forall2 (record_rel cloud providers) multiple
      (filter (fun item => selected args item) tally).
Proof.
  rewrite classifier_outcome.
  destruct (outcome (read_phase cloud)) as [[providers tally]|e] eqn:Hread;
    [|done].
  intros Haudit. exists providers, tally.
  pose proof (read_phase_inv _ _ _ Hread) as Hinv.
  pose proof (audit_phase_cases cloud args providers tally
                (inv_tally_NoDup _ _ Hinv)) as Hcases.
  by rewrite Haudit in Hcases.
Qed.

Lemma classifier_keys_NoDup cloud args multiple :
  outcome (classifier cloud args) = Ok multiple -> NoDup multiple.*1.
Proof.
  intros (providers & tally & _ & _ & Hinv & Hall)%classifier_Ok.
  rewrite (record_rel_keys _ _ _ _ Hall).
  apply filter_keys_NoDup, Hinv.
Qed.

(** Every record comes from a selected item of the tally. *)
Lemma classifier_record cloud args multiple i info :
  outcome (classifier cloud args) = Ok multiple ->
  (i, info) ∈ multiple ->
  exists providers tally allocs,
    outcome (read_phase cloud) = Ok (providers, tally) /\
    read_inv providers tally /\
    dict_get i tally = Some allocs /\
    selected args (i, allocs) = true /\
    record_rel cloud providers (i, info) (i, allocs).
Proof.
  intros (providers & tally & Hread & _ & Hinv & Hall)%classifier_Ok Hin.
  destruct (Forall2_elem_of_left _ _ _ _ Hall Hin) as ([i' allocs] & Hy & Hrel).
  assert (i' = i) as -> by (by destruct Hrel as [E _]; simpl in E).
  apply list_elem_of_filter in Hy as [Hsel Hy].
  exists providers, tally, allocs.
  split; [done|]. split; [done|]. split; [|split; [|done]].
  - apply elem_of_dict_get; [apply Hinv|done].
  - by apply Is_true_true.
Qed.

Lemma elem_of_planned_puts multiple i data :
  (i, data) ∈ planned_puts multiple <->
  exists info allocation,
    (i, info) ∈ multiple /\
    first_active (c_allocations info) = Some allocation /\
    data = allocation_data allocation.
Proof.
  unfold planned_puts. rewrite list_elem_of_omap. split.
  - intros ([i' info] & Hin & Hplan). unfold planned_put in Hplan.
    cbn [fst snd] in Hplan.
    destruct (first_active (c_allocations info)) as [allocation|] eqn:Hfirst;
      [|done].
    injection Hplan as -> <-. by exists info, allocation.
  - intros (info & allocation & Hin & Hfirst & ->).
    exists (i, info). split; [done|].
    unfold planned_put. cbn [fst snd]. by rewrite Hfirst.
Qed.

Lemma planned_puts_keys_sublist multiple :
  (planned_puts multiple).*1 `sublist_of` multiple.*1.
Proof.
  induction multiple as [|[i info] multiple IH]; [done|].
  rewrite planned_puts_cons.
  destruct (first_active (c_allocations info)).
  - by apply sublist_skip.
  - by apply sublist_cons.
Qed.

(** The writes of a run: only with [--repair], a prefix of the planned
    writes of the classifier's records. *)
Lemma main_puts_prefix cloud args :
  puts (trace (main cloud args)) = [] \/
  repair args = true /\
  exists multiple,
    outcome (classifier cloud args) = Ok multiple /\
    puts (trace (main cloud args)) `prefix_of` planned_puts multiple.
Proof.
  pose proof (main_spec cloud args) as Hmain. cbv zeta in Hmain.
  destruct (outcome (classifier cloud args)) as [multiple|e];
    [|left; apply Hmain].
  destruct (outcome (dump_phase cloud args multiple)); [|left; apply Hmain].
  destruct Hmain as (_ & -> & _).
  destruct (repair args); [|by left].
  right. split; [done|]. exists multiple. split; [done|].
  apply run_puts_prefix.
Qed.

Lemma main_puts_keys_NoDup cloud args :
  NoDup (puts (trace (main cloud args))).*1.
Proof.
  destruct (main_puts_prefix cloud args)
    as [->|(_ & multiple & Hc & [rest Hpre])]; [constructor|].
  eapply sublist_NoDup; [apply (classifier_keys_NoDup _ _ _ Hc)|].
  etrans; [|apply planned_puts_keys_sublist].
  rewrite Hpre, fmap_app. by apply sublist_inserts_r.
Qed.

Lemma main_puts_elem cloud args i data :
  (i, data) ∈ puts (trace (main cloud args)) ->
  repair args = true /\
  exists multiple info allocation,
    outcome (classifier cloud args) = Ok multiple /\
    (i, info) ∈ multiple /\
    first_active (c_allocations info) = Some allocation /\
    data = allocation_data allocation.
Proof.
  destruct (main_puts_prefix cloud args)
    as [->|(Hrepair & multiple & Hc & Hpre)].
  - by intros ?%elem_of_nil.
  - intros Hin. split; [done|].
    apply (elem_of_prefix _ _ _ Hin), elem_of_planned_puts in Hpre
      as (info & allocation & ? & ? & ?).
    by exists multiple, info, allocation.
Qed.

Lemma selected_true args i allocs :
  selected args (i, allocs) = true ->
  (limit args = [] \/ i ∈ limit args) /\ (1 < dict_len allocs)%nat.
Proof.
  unfold selected. cbn [fst snd].
  intros [Hlim Hlen%bool_decide_eq_true]%andb_prop. split; [|done].
  apply orb_prop in Hlim as [H%bool_decide_eq_true|H%bool_decide_eq_true];
    auto.
Qed.

(** ** The allow-list *)

(** C9.  When [--limit] is given and does not list an instance, no run
    issues a write for that instance. *)
Theorem limit_excludes_repair (cloud : Cloud) (args : Args)
    (instance_uuid : string) :
  limit args <> [] ->
  instance_uuid ∉ limit args ->
  forall data, (instance_uuid, data) ∉ puts (trace (main cloud args)).
Proof.
  intros Hlimit Hnot data Hin.
  apply main_puts_elem in Hin
    as (_ & multiple & info & allocation & Hc & Hin & _).
  destruct (classifier_record _ _ _ _ _ Hc Hin)
    as (providers & tally & allocs & _ & _ & _ & Hsel & _).
  apply selected_true in Hsel as [[Hnil|Hlisted] _]; done.
Qed.

Lemma limit_excludes_repair_witness :
  ("i1", allocation_data
           {| e_provider := provider_A; e_active := true;
              e_allocation := {| resources := [("VCPU", 2)] |} |})
  ∉ puts (trace (main
       (scenario_cloud [("VCPU", 2)] [("VCPU", 4)]
          (Ok (Some {| hypervisor_hostname := Some "hostA" |}))
          (fun _ _ => Ok (mkResponse 204 tt)))
       {| repair := true; limit := ["i7"]; output_json := None |})).
Proof.
  apply (limit_excludes_repair
           (scenario_cloud [("VCPU", 2)] [("VCPU", 4)]
              (Ok (Some {| hypervisor_hostname := Some "hostA" |}))
              (fun _ _ => Ok (mkResponse 204 tt)))
           {| repair := true; limit := ["i7"]; output_json := None |}
           "i1").
  - discriminate.
  - intros Hin. apply elem_of_cons in Hin as [Heq|Hin]; [discriminate|].
    by apply elem_of_nil in Hin.
Defined.

(** ** Instances that are not anomalies *)

Lemma elem_of_report_lines multiple line :
  line ∈ report_lines multiple ->
  line ∈ multiple.*1 \/
  exists name, line = "* " +:+ name \/ line = "- " +:+ name.
Proof.
  unfold report_lines.
  induction multiple as [|[i info] multiple IH]; cbn [map concat].
  - by intros ?%elem_of_nil.
  - unfold report_block at 1. cbn [fst snd]. rewrite fmap_cons.
    rewrite <- app_comm_cons, elem_of_cons, elem_of_app.
    intros [->|[Hline|Hrest]].
    + left. left.
    + right. apply list_elem_of_In, in_map_iff in Hline as (e & <- & _).
      exists (rp_name (e_provider e)). unfold report_line.
      destruct (e_active e); auto.
    + destruct (IH Hrest) as [Hkey|Hname]; [left; by right|by right].
Qed.

(** What a run prints is the report of a dictionary of conflict records
    whose keys are keys of the classifier's result. *)
Lemma main_stdout cloud args :
  stdout (trace (main cloud args)) = [] \/
  exists multiple,
    outcome (classifier cloud args) = Ok multiple /\
    stdout (trace (main cloud args)) = report_lines multiple.
Proof.
  pose proof (main_spec cloud args) as Hmain. cbv zeta in Hmain.
  destruct (outcome (classifier cloud args)) as [multiple|e];
    [|left; apply Hmain].
  destruct (outcome (dump_phase cloud args multiple)); [|left; apply Hmain].
  right. exists multiple. split; [done|apply Hmain].
Qed.

Lemma classifier_drops cloud args providers tally multiple i :
  outcome (read_phase cloud) = Ok (providers, tally) ->
  (forall allocs,
      dict_get i tally = Some allocs -> (dict_len allocs <= 1)%nat) ->
  outcome (classifier cloud args) = Ok multiple ->
  dict_get i multiple = None.
Proof.
  intros Hread Hsmall Hc. apply dict_get_None. intros Hin.
  apply list_elem_of_fmap in Hin as ([i' info] & Ei & Hin). simpl in Ei.
  subst i'.
  destruct (classifier_record _ _ _ _ _ Hc Hin)
    as (providers' & tally' & allocs & Hread' & _ & Hget & Hsel & _).
  rewrite Hread in Hread'. injection Hread' as <- <-.
  apply selected_true in Hsel as [_ Hlen].
  specialize (Hsmall allocs Hget). lia.
Qed.

(** C7.  An instance with one or no allocation in the tally gets no
    conflict record, no block in the report (the report is that of
    records of other instances, and none of its lines is the instance's
    uuid), and no write: a run that finds an already repaired instance
    with a single allocation leaves it alone. *)
Theorem single_allocation_is_dropped (cloud : Cloud) (args : Args)
    (providers : dict ResourceProvider) (tally : dict (dict Allocation))
    (instance_uuid : string) :
  outcome (read_phase cloud) = Ok (providers, tally) ->
  (forall allocations,
      dict_get instance_uuid tally = Some allocations ->
      (dict_len allocations <= 1)%nat) ->
  (forall multiple,
      outcome (audit_phase cloud args providers tally) = Ok multiple ->
      dict_get instance_uuid multiple = None) /\
  (exists multiple,
      dict_get instance_uuid multiple = None /\
      stdout (trace (main cloud args)) = report_lines multiple) /\
  ((forall name,
       instance_uuid <> "* " +:+ name /\ instance_uuid <> "- " +:+ name) ->
   instance_uuid ∉ stdout (trace (main cloud args))) /\
  (forall data, (instance_uuid, data) ∉ puts (trace (main cloud args))).
Proof.
  intros Hread Hsmall.
  assert (Hdrop : forall multiple,
             outcome (classifier cloud args) = Ok multiple ->
             dict_get instance_uuid multiple = None).
  { intros multiple. by apply (classifier_drops cloud args providers tally). }
  assert (Hreport : exists multiple,
             dict_get instance_uuid multiple = None /\
             stdout (trace (main cloud args)) = report_lines multiple).
  { destruct (main_stdout cloud args) as [->|(multiple & Hc & ->)].
    - by exists [].
    - exists multiple. split; [by apply Hdrop|done]. }
  split; [|split; [done|split]].
  - intros multiple Haudit. apply Hdrop.
    by rewrite classifier_outcome, Hread.
  - intros Hmark Hin. destruct Hreport as (multiple & Hnone & Hout).
    rewrite Hout in Hin.
    apply elem_of_report_lines in Hin as [Hkey|(name & [->| ->])].
    + by apply dict_get_None in Hnone.
    + by destruct (Hmark name) as [? _].
    + by destruct (Hmark name) as [_ ?].
  - intros data Hin.
    apply main_puts_elem in Hin
      as (_ & multiple & info & allocation & Hc & Hin & _).
    specialize (Hdrop multiple Hc). apply dict_get_None in Hdrop.
    apply Hdrop. by apply (list_elem_of_fmap_2 fst _ (instance_uuid, info)).
Qed.

Lemma single_allocation_is_dropped_witness :
  ("i3", allocation_data
           {| e_provider := provider_A; e_active := true;
              e_allocation := vcpu 1 |})
  ∉ puts (trace (main (three_instance_cloud put_accepts) repair_args)).
Proof.
  eapply (fun Hread Hsmall =>
            proj2 (proj2 (proj2
              (single_allocation_is_dropped
                 (three_instance_cloud put_accepts) repair_args
                 [("p1", provider_A); ("p2", provider_B)]
                 [("i1", [("p1", vcpu 2); ("p2", vcpu 2)]);
                  ("i2", [("p1", vcpu 4); ("p2", vcpu 4)]);
                  ("i3", [("p1", vcpu 1)])]
                 "i3" Hread Hsmall)))).
  - reflexivity.
  - intros allocations Hget. vm_compute in Hget.
    injection Hget as <-. vm_compute. lia.
Defined.

(** Two runs in succession on the cloud with two conflicting instances:
    the first repairs "i1" and "i2"; the second, on the service as the
    first left it, finds one allocation for each instance, reports
    nothing and writes nothing. *)
Example second_run_writes_nothing :
  let cloud := three_instance_cloud put_accepts in
  let first := main cloud repair_args in
  let second := main (placement_after cloud (puts (trace first))) repair_args in
  puts (trace first) =
    [("i1", {| body_allocations :=
                [ {| resource_provider_uuid := "p1";
                     req_resources := [("VCPU", 2)] |} ] |});
     ("i2", {| body_allocations :=
                [ {| resource_provider_uuid := "p2";
                     req_resources := [("VCPU", 4)] |} ] |})] /\
  outcome (read_phase (placement_after cloud (puts (trace first)))) =
    Ok ([("p1", provider_A); ("p2", provider_B)],
        [("i1", [("p1", vcpu 2)]);
         ("i3", [("p1", vcpu 1)]);
         ("i2", [("p2", vcpu 4)])]) /\
  stdout (trace second) = [] /\
  puts (trace second) = [] /\
  outcome second = Ok tt.
Proof. cbv zeta. repeat split; reflexivity. Qed.

(** ** Instances without an active entry *)

Lemma first_active_Some allocations allocation :
  first_active allocations = Some allocation <->
  is_first_active allocations allocation.
Proof.
  unfold first_active, is_first_active.
  induction allocations as [|e rest IH]; cbn [find].
  - split; [done|]. intros (before & after & Hl & _). by destruct before.
  - destruct (e_active e) eqn:He.
    + split.
      * intros [= ->]. exists [], rest. by repeat split.
      * intros ([|e' before] & after & Hl & Hbefore & Hact).
        -- by injection Hl as -> _.
        -- injection Hl as -> _. apply Forall_cons in Hbefore as [Hf _].
           congruence.
    + rewrite IH. split.
      * intros (before & after & -> & Hbefore & Hact).
        exists (e :: before), after. repeat split; [|done]. by constructor.
      * intros ([|e' before] & after & Hl & Hbefore & Hact).
        -- injection Hl as -> _. congruence.
        -- injection Hl as -> ->. apply Forall_cons in Hbefore as [_ Hb].
           by exists before, after.
Qed.

Lemma first_active_None allocations :
  first_active allocations = None <->
  Forall (fun e => e_active e = false) allocations.
Proof.
  unfold first_active. induction allocations as [|e rest IH]; cbn [find].
  - split; [constructor|done].
  - rewrite Forall_cons. destruct (e_active e); [|tauto].
    split; [done|]. by intros [? _].
Qed.

Lemma report_lines_block multiple i info :
  (i, info) ∈ multiple ->
  exists before after,
    report_lines multiple = before ++ report_block (i, info) ++ after.
Proof.
  unfold report_lines. intros Hin.
  apply list_elem_of_split in Hin as (l1 & l2 & ->).
  exists (concat (map report_block l1)), (concat (map report_block l2)).
  by rewrite map_app, concat_app.
Qed.

Lemma report_block_inactive i info :
  Forall (fun e => e_active e = false) (c_allocations info) ->
  report_block (i, info) =
  i :: map (fun e => "- " +:+ rp_name (e_provider e)) (c_allocations info).
Proof.
  unfold report_block. cbn [fst snd]. intros Hall. f_equal.
  induction Hall as [|e rest He _ IH]; [done|].
  cbn [map]. rewrite IH. f_equal. unfold report_line. by rewrite He.
Qed.

(** C6.  A conflicting instance none of whose entries is active gets no
    write, and it is not lost from the output: when the run reaches the
    report, its uuid line followed by one ["- name"] line for each of its
    entries (no ["*"] line) is printed. *)
Theorem unresolved_instance_is_reported (cloud : Cloud) (args : Args)
    (multiple : dict ConflictRecord) (instance_uuid : string)
    (info : ConflictRecord) :
  outcome (classifier cloud args) = Ok multiple ->
  dict_get instance_uuid multiple = Some info ->
  Forall (fun e => e_active e = false) (c_allocations info) ->
  (forall data, (instance_uuid, data) ∉ puts (trace (main cloud args))) /\
  (outcome (dump_phase cloud args multiple) = Ok tt ->
   exists before after,
     stdout (trace (main cloud args)) =
     before ++
     (instance_uuid ::
      map (fun e => "- " +:+ rp_name (e_provider e)) (c_allocations info)) ++
     after).
Proof.
  intros Hc Hget Hinactive. split.
  - intros data Hin.
    apply main_puts_elem in Hin
      as (_ & multiple' & info' & allocation & Hc' & Hin & Hfirst & _).
    rewrite Hc in Hc'. injection Hc' as <-.
    apply elem_of_dict_get in Hin;
      [|by apply (classifier_keys_NoDup cloud args)].
    rewrite Hget in Hin. injection Hin as <-.
    apply first_active_None in Hinactive. congruence.
  - intros Hdump.
    pose proof (main_spec cloud args) as Hmain. cbv zeta in Hmain.
    rewrite Hc, Hdump in Hmain. destruct Hmain as (-> & _).
    rewrite <- (report_block_inactive _ _ Hinactive).
    apply report_lines_block. by apply dict_get_elem_of.
Qed.

Lemma unresolved_instance_is_reported_witness :
  let cloud := scenario_cloud [("VCPU", 2)] [("VCPU", 4)] (Ok None)
                 put_accepts in
  (("i1", allocation_data
            {| e_provider := provider_A; e_active := false;
               e_allocation := vcpu 2 |})
   ∉ puts (trace (main cloud repair_args))) /\
  exists before after,
    stdout (trace (main cloud repair_args)) =
    before ++ ["i1"; "- hostA"; "- hostB"] ++ after.
Proof.
  intros cloud.
  destruct (unresolved_instance_is_reported cloud repair_args
              [("i1",
                {| c_uuid := "i1"; c_active := None;
                   c_allocations :=
                     [ {| e_provider := provider_A; e_active := false;
                          e_allocation := vcpu 2 |};
                       {| e_provider := provider_B; e_active := false;
                          e_allocation := vcpu 4 |} ] |})]
              "i1"
              {| c_uuid := "i1"; c_active := None;
                 c_allocations :=
                   [ {| e_provider := provider_A; e_active := false;
                        e_allocation := vcpu 2 |};
                     {| e_provider := provider_B; e_active := false;
                        e_allocation := vcpu 4 |} ] |}
              eq_refl eq_refl)
    as [Hput Hout].
  - by repeat constructor.
  - split; [apply Hput|]. apply Hout. reflexivity.
Defined.

(** ** One write per instance *)

Lemma filter_key_fresh {V} (l : list (string * V)) (k : string) :
  k ∉ l.*1 -> filter (fun x => x.1 = k) l = [].
Proof.
  induction l as [|[k' v] l IH]; [done|].
  rewrite fmap_cons, not_elem_of_cons. cbn [fst]. intros [Hne Hl].
  rewrite filter_cons_False by (cbn [fst]; congruence). by apply IH.
Qed.

Lemma count_key_le_1 {V} (l : list (string * V)) (k : string) :
  NoDup l.*1 -> (length (filter (fun x => x.1 = k) l) <= 1)%nat.
Proof.
  induction l as [|[k' v] l IH]; [simpl; lia|].
  rewrite fmap_cons. intros [Hk' Hnd]%NoDup_cons. cbn [fst] in Hk'.
  rewrite filter_cons. cbn [fst].
  destruct (decide (k' = k)) as [->|]; [|by apply IH].
  rewrite filter_key_fresh by done. simpl. lia.
Qed.

(** C2.  In every run, at most one write is issued for an instance; a
    write issued for it carries the first active entry of its record, in
    the recorded order of the entries; and in a run with [--repair] that
    completes, an instance whose record has an active entry does get
    that write. *)
Theorem repair_once_with_first_active (cloud : Cloud) (args : Args)
    (instance_uuid : string) :
  (length (filter (fun call => call.1 = instance_uuid)
             (puts (trace (main cloud args)))) <= 1)%nat /\
  (forall data,
      (instance_uuid, data) ∈ puts (trace (main cloud args)) ->
      exists multiple info allocation,
        outcome (classifier cloud args) = Ok multiple /\
        dict_get instance_uuid multiple = Some info /\
        is_first_active (c_allocations info) allocation /\
        data = allocation_data allocation) /\
  (forall multiple info allocation,
      repair args = true ->
      outcome (main cloud args) = Ok tt ->
      outcome (classifier cloud args) = Ok multiple ->
      dict_get instance_uuid multiple = Some info ->
      is_first_active (c_allocations info) allocation ->
      (instance_uuid, allocation_data allocation)
        ∈ puts (trace (main cloud args))).
Proof.
  split; [|split].
  - apply count_key_le_1, main_puts_keys_NoDup.
  - intros data Hin.
    apply main_puts_elem in Hin
      as (_ & multiple & info & allocation & Hc & Hin & Hfirst & ->).
    exists multiple, info, allocation. repeat split; try done.
    + apply elem_of_dict_get; [|done].
      by apply (classifier_keys_NoDup cloud args).
    + by apply first_active_Some.
  - intros multiple info allocation Hrepair Hrun Hc Hget Hfirst.
    pose proof (main_spec cloud args) as Hmain. cbv zeta in Hmain.
    rewrite Hc in Hmain.
    destruct (outcome (dump_phase cloud args multiple)) as [[]|e].
    + destruct Hmain as (_ & -> & Hout). rewrite Hrepair in *.
      rewrite Hrun in Hout. rewrite run_puts_Ok by done.
      apply elem_of_planned_puts. exists info, allocation.
      split; [by apply dict_get_elem_of|].
      split; [by apply first_active_Some|done].
    + destruct Hmain as (_ & _ & Hout). congruence.
Qed.

Lemma repair_once_with_first_active_witness :
  ("i2", allocation_data
           {| e_provider := provider_B; e_active := true;
              e_allocation := vcpu 4 |})
  ∈ puts (trace (main (three_instance_cloud put_accepts) repair_args)).
Proof.
  apply (proj2 (proj2 (repair_once_with_first_active
                         (three_instance_cloud put_accepts) repair_args "i2"))
           [("i1",
             {| c_uuid := "i1"; c_active := Some "hostA";
                c_allocations :=
                  [ {| e_provider := provider_A; e_active := true;
                       e_allocation := vcpu 2 |};
                    {| e_provider := provider_B; e_active := false;
                       e_allocation := vcpu 2 |} ] |});
            ("i2",
             {| c_uuid := "i2"; c_active := Some "hostB";
                c_allocations :=
                  [ {| e_provider := provider_A; e_active := false;
                       e_allocation := vcpu 4 |};
                    {| e_provider := provider_B; e_active := true;
                       e_allocation := vcpu 4 |} ] |})]
           {| c_uuid := "i2"; c_active := Some "hostB";
              c_allocations :=
                [ {| e_provider := provider_A; e_active := false;
                     e_allocation := vcpu 4 |};
                  {| e_provider := provider_B; e_active := true;
                     e_allocation := vcpu 4 |} ] |}
           {| e_provider := provider_B; e_active := true;
              e_allocation := vcpu 4 |}).
  - reflexivity.
  - reflexivity.
  - reflexivity.
  - reflexivity.
  - exists [ {| e_provider := provider_A; e_active := false;
               e_allocation := vcpu 4 |} ], [].
    split; [reflexivity|]. split; [|reflexivity].
    constructor; [reflexivity|constructor].
Defined.

(** ** A failing write *)

(** C3 fails: with two conflicting instances and a placement service
    that answers [409] to the write for "i1", the run ends with the
    [HTTPError] of that write and never attempts the write for "i2". *)
Lemma repair_failure_counterexample :
  let cloud := three_instance_cloud put_conflict_on_i1 in
  let run := main cloud repair_args in
  let call1 :=
    ("i1", {| body_allocations :=
               [ {| resource_provider_uuid := "p1";
                    req_resources := [("VCPU", 2)] |} ] |}) in
  let call2 :=
    ("i2", {| body_allocations :=
               [ {| resource_provider_uuid := "p2";
                    req_resources := [("VCPU", 4)] |} ] |}) in
  (planned_puts <$> outcome_value (classifier cloud repair_args))
    = Some [call1; call2] /\
  put_result cloud call1 = Raise (HTTPError 409) /\
  puts (trace run) = [call1] /\
  outcome run = Raise (HTTPError 409) /\
  ~ repair_continues_after_failure cloud repair_args.
Proof.
  cbv zeta. repeat split; try reflexivity.
  intros Hclaim.
  specialize (Hclaim _ eq_refl eq_refl eq_refl). discriminate Hclaim.
Qed.

(** C3, as the code has it.  When the write for a record fails, the
    exception is not caught: the run ends with it, having issued the
    writes planned for the records before it and the failing write, and
    no write for a later record. *)
Theorem repair_failure_aborts_run (cloud : Cloud) (args : Args)
    (multiple : dict ConflictRecord)
    (before after : list (string * PutBody)) (call : string * PutBody)
    (e : exn) :
  outcome (classifier cloud args) = Ok multiple ->
  outcome (dump_phase cloud args multiple) = Ok tt ->
  repair args = true ->
  planned_puts multiple = before ++ call :: after ->
  Forall (fun c => put_result cloud c = Ok tt) before ->
  put_result cloud call = Raise e ->
  outcome (main cloud args) = Raise e /\
  puts (trace (main cloud args)) = before ++ [call].
Proof.
  intros Hc Hdump Hrepair Hplan Hbefore Hcall.
  pose proof (main_spec cloud args) as Hmain. cbv zeta in Hmain.
  rewrite Hc, Hdump, Hrepair, Hplan in Hmain.
  rewrite (run_puts_fail _ _ _ _ _ Hbefore Hcall) in Hmain.
  by destruct Hmain as (_ & -> & ->).
Qed.

Lemma repair_failure_aborts_run_witness :
  let cloud := three_instance_cloud put_conflict_on_i1 in
  outcome (main cloud repair_args) = Raise (HTTPError 409) /\
  puts (trace (main cloud repair_args)) =
    [] ++ [("i1", {| body_allocations :=
                      [ {| resource_provider_uuid := "p1";
                           req_resources := [("VCPU", 2)] |} ] |})].
Proof.
  intros cloud.
  apply (repair_failure_aborts_run cloud repair_args
           [("i1",
             {| c_uuid := "i1"; c_active := Some "hostA";
                c_allocations :=
                  [ {| e_provider := provider_A; e_active := true;
                       e_allocation := vcpu 2 |};
                    {| e_provider := provider_B; e_active := false;
                       e_allocation := vcpu 2 |} ] |});
            ("i2",
             {| c_uuid := "i2"; c_active := Some "hostB";
                c_allocations :=
                  [ {| e_provider := provider_A; e_active := false;
                       e_allocation := vcpu 4 |};
                    {| e_provider := provider_B; e_active := true;
                       e_allocation := vcpu 4 |} ] |})]
           []
           [("i2", {| body_allocations :=
                       [ {| resource_provider_uuid := "p2";
                            req_resources := [("VCPU", 4)] |} ] |})]).
  - reflexivity.
  - reflexivity.
  - reflexivity.
  - reflexivity.
  - constructor.
  - reflexivity.
Defined.

(** ** Active entries *)

(** The entries of a record pair up with providers filed in [providers]
    under the keys of the tally item; active entries pair up with the
    providers whose name is the host. *)
Lemma entries_providers providers host entries allocs :
  Forall2 (entry_rel providers host) entries allocs ->
  exists filed : list (string * ResourceProvider),
    filed.*1 = allocs.*1 /\
    Forall (fun up => dict_get up.1 providers = Some up.2) filed /\
    length (filter (fun e => e_active e = true) entries) =
    length (filter (fun up => Some (rp_name up.2) = host) filed).
Proof.
  induction 1 as [|e [u a] entries allocs (Hget & _ & Hact) _
                    (filed & Hkeys & Hfiled & Hlen)].
  - by exists [].
  - exists ((u, e_provider e) :: filed). cbn [fst snd] in *.
    split; [by rewrite !fmap_cons, Hkeys|]. split; [by constructor|].
    rewrite !filter_cons. cbn [snd].
    destruct (decide (e_active e = true)) as [Ht|Hf],
             (decide (Some (rp_name (e_provider e)) = host)) as [Hm|Hn];
      cbn [length]; try congruence; tauto.
Qed.

Lemma active_count_le providers host entries allocs :
  NoDup allocs.*1 ->
  Forall2 (entry_rel providers host) entries allocs ->
  (length (filter (fun e => e_active e = true) entries) <=
   length (filter (fun up => Some (rp_name up.2) = host) providers))%nat.
Proof.
  intros Hnd (filed & Hkeys & Hfiled & ->)%entries_providers.
  apply submseteq_length, NoDup_submseteq.
  - apply NoDup_filter. apply (NoDup_fmap_1 fst). by rewrite Hkeys.
  - intros [u p] [Hmatch Hin]%list_elem_of_filter.
    apply list_elem_of_filter. split; [done|].
    rewrite Forall_forall in Hfiled. specialize (Hfiled _ Hin).
    by apply dict_get_elem_of.
Qed.

(** C5.  The record of a conflicting instance has one entry for each
    allocation of the instance in the tally, in the order of the tally
    entry, holding the provider filed under the allocation's provider
    uuid and the allocation; the entry is active exactly when the name
    of that provider equals, as a string, the host the compute lookup
    reported for the instance.  So the active entries are at most as
    many as the providers with that name, and there is none when the
    lookup finds no instance, reports no host, or no provider has that
    name. *)
Theorem active_iff_name_is_host (cloud : Cloud) (args : Args)
    (multiple : dict ConflictRecord) (instance_uuid : string)
    (info : ConflictRecord) :
  outcome (classifier cloud args) = Ok multiple ->
  dict_get instance_uuid multiple = Some info ->
  exists providers tally allocations instance,
    outcome (read_phase cloud) = Ok (providers, tally) /\
    dict_get instance_uuid tally = Some allocations /\
    (1 < dict_len allocations)%nat /\
    get_server cloud instance_uuid = Ok instance /\
    c_active info = host_of instance /\
    Forall2
      (fun (e : Entry) (item : string * Allocation) =>
         dict_get item.1 providers = Some (e_provider e) /\
         e_allocation e = item.2 /\
         (e_active e = true <->
          Some (rp_name (e_provider e)) = c_active info))
      (c_allocations info) (dict_items allocations) /\
    length (c_allocations info) = dict_len allocations /\
    (forall e, e ∈ c_allocations info ->
       (e_active e = true <-> Some (rp_name (e_provider e)) = c_active info)) /\
    (length (filter (fun e => e_active e = true) (c_allocations info)) <=
     length (filter (fun up => Some (rp_name up.2) = c_active info)
               (dict_items providers)))%nat /\
    (instance = None \/ c_active info = None \/
     (forall provider_uuid provider,
         dict_get provider_uuid providers = Some provider ->
         Some (rp_name provider) <> c_active info) ->
     Forall (fun e => e_active e = false) (c_allocations info)).
Proof.
  intros Hc Hget. apply dict_get_elem_of in Hget.
  destruct (classifier_record _ _ _ _ _ Hc Hget)
    as (providers & tally & allocs & Hread & Hinv & Htally & Hsel & Hrel).
  destruct Hrel as (_ & _ & (instance & Hsrv & Hhost) & Hentries).
  cbn [fst snd] in *.
  apply selected_true in Hsel as [_ Hlen].
  assert (Hiff : forall e, e ∈ c_allocations info ->
             (e_active e = true <->
              Some (rp_name (e_provider e)) = c_active info)).
  { intros e He.
    destruct (Forall2_elem_of_left _ _ _ _ Hentries He) as (ua & _ & Hrel).
    apply Hrel. }
  assert (Hfiled : forall e, e ∈ c_allocations info ->
             exists u, dict_get u providers = Some (e_provider e)).
  { intros e He.
    destruct (Forall2_elem_of_left _ _ _ _ Hentries He) as (ua & _ & Hrel).
    exists ua.1. apply Hrel. }
  exists providers, tally, allocs, instance.
  split; [done|]. split; [done|]. split; [done|]. split; [done|].
  split; [done|]. split; [exact Hentries|].
  split; [exact (Forall2_length _ _ _ Hentries)|].
  split; [exact Hiff|]. split.
  - apply (active_count_le providers (c_active info) _ allocs); [|done].
    by apply (inv_allocs_NoDup _ _ Hinv instance_uuid).
  - intros Hnone. apply Forall_forall. intros e He.
    apply not_true_is_false. intros Hact%(Hiff e He).
    destruct Hnone as [->|[Hnone|Hnone]].
    + rewrite Hhost in Hact. discriminate Hact.
    + rewrite Hnone in Hact. discriminate Hact.
    + destruct (Hfiled e He) as (u & Hu). by apply (Hnone u _ Hu).
Qed.

Lemma active_iff_name_is_host_witness :
  let cloud :=
    scenario_cloud [("VCPU", 2)] [("VCPU", 4)]
      (Ok (Some {| hypervisor_hostname := Some "hostA" |})) put_accepts in
  exists providers tally allocations instance,
    outcome (read_phase cloud) = Ok (providers, tally) /\
    dict_get "i1" tally = Some allocations /\
    (1 < dict_len allocations)%nat /\
    get_server cloud "i1" = Ok instance /\
    Some "hostA" = host_of instance /\
    Forall2
      (fun (e : Entry) (item : string * Allocation) =>
         dict_get item.1 providers = Some (e_provider e) /\
         e_allocation e = item.2 /\
         (e_active e = true <->
          Some (rp_name (e_provider e)) = Some "hostA"))
      [ {| e_provider := provider_A; e_active := true;
           e_allocation := vcpu 2 |};
        {| e_provider := provider_B; e_active := false;
           e_allocation := vcpu 4 |} ]
      (dict_items allocations) /\
    length
      [ {| e_provider := provider_A; e_active := true;
           e_allocation := vcpu 2 |};
        {| e_provider := provider_B; e_active := false;
           e_allocation := vcpu 4 |} ] = dict_len allocations.
Proof.
  intros cloud.
  destruct (active_iff_name_is_host cloud repair_args
              [("i1",
                {| c_uuid := "i1"; c_active := Some "hostA";
                   c_allocations :=
                     [ {| e_provider := provider_A; e_active := true;
                          e_allocation := vcpu 2 |};
                       {| e_provider := provider_B; e_active := false;
                          e_allocation := vcpu 4 |} ] |})]
              "i1"
              {| c_uuid := "i1"; c_active := Some "hostA";
                 c_allocations :=
                   [ {| e_provider := provider_A; e_active := true;
                        e_allocation := vcpu 2 |};
                     {| e_provider := provider_B; e_active := false;
                        e_allocation := vcpu 4 |} ] |}
              eq_refl eq_refl)
    as (providers & tally & allocations & instance & Hread & Htally & Hlen
        & Hsrv & Hhost & Hentries & Hsame & _).
  exists providers, tally, allocations, instance.
  split; [exact Hread|]. split; [exact Htally|]. split; [exact Hlen|].
  split; [exact Hsrv|]. split; [exact Hhost|]. split; [exact Hentries|].
  exact Hsame.
Defined.

(** Names are compared as they are: a host reported in another case
    matches no provider. *)
Example host_comparison_is_case_sensitive :
  outcome (classifier
             (scenario_cloud [("VCPU", 2)] [("VCPU", 4)]
                (Ok (Some {| hypervisor_hostname := Some "HOSTA" |}))
                put_accepts)
             repair_args) =
  Ok [("i1",
       {| c_uuid := "i1"; c_active := Some "HOSTA";
          c_allocations :=
            [ {| e_provider := provider_A; e_active := false;
                 e_allocation := vcpu 2 |};
              {| e_provider := provider_B; e_active := false;
                 e_allocation := vcpu 4 |} ] |})].
Proof. reflexivity. Qed.

(** ** Order of the providers *)

Lemma tally_view_lookup tally i :
  tally_view tally !! i = dict_map <$> dict_get i tally.
Proof. unfold tally_view. by rewrite lookup_fmap, dict_map_lookup. Qed.

Lemma tally_view_add i u a tally :
  tally_view (tally_add i u a tally) =
  merge_allocation i u a (tally_view tally).
Proof.
  apply map_eq. intros j. unfold merge_allocation.
  rewrite lookup_insert, !tally_view_lookup, dict_get_tally_add.
  destruct (decide (i = j)) as [->|]; [|done].
  cbn [fmap option_fmap option_map]. f_equal. rewrite dict_map_set.
  by destruct (dict_get j tally).
Qed.

Lemma tally_view_provider u items tally :
  tally_view (tally_provider u items tally) =
  merge_provider u items (tally_view tally).
Proof.
  unfold tally_provider, merge_provider, dict_items. revert tally.
  induction items as [|[i a] items IH]; intros tally; [done|].
  cbn [fold_left fst snd]. by rewrite IH, tally_view_add.
Qed.

Lemma merge_allocation_comm i u a i' u' a' m :
  u <> u' ->
  merge_allocation i u a (merge_allocation i' u' a' m) =
  merge_allocation i' u' a' (merge_allocation i u a m).
Proof.
  intros Hne. apply map_eq. intros j. unfold merge_allocation.
  rewrite !lookup_insert.
  repeat case_decide; simplify_eq; cbn [default]; try done.
  f_equal. by apply insert_insert_ne.
Qed.

Lemma merge_provider_allocation_comm u items i' u' a' m :
  u <> u' ->
  merge_provider u items (merge_allocation i' u' a' m) =
  merge_allocation i' u' a' (merge_provider u items m).
Proof.
  intros Hne. unfold merge_provider. revert m.
  induction items as [|[i a] items IH]; intros m; [done|].
  cbn [fold_left fst snd].
  by rewrite <- IH, (merge_allocation_comm i u a i' u' a') by done.
Qed.

Lemma merge_provider_comm u items u' items' m :
  u <> u' ->
  merge_provider u items (merge_provider u' items' m) =
  merge_provider u' items' (merge_provider u items m).
Proof.
  intros Hne. revert m.
  induction items' as [|[i' a'] items' IH]; intros m; [done|].
  unfold merge_provider at 2 3. cbn [fold_left fst snd].
  fold (merge_provider u' items' (merge_allocation i' u' a' m)).
  fold (merge_provider u' items'
          (merge_allocation i' u' a' (merge_provider u items m))).
  by rewrite IH, merge_provider_allocation_comm.
Qed.

Lemma merge_fetched_comm cloud m p q :
  merge_fetched cloud (merge_fetched cloud m p) q =
  merge_fetched cloud (merge_fetched cloud m q) p.
Proof.
  unfold merge_fetched.
  destruct (decide (rp_uuid p = rp_uuid q)) as [->|Hne]; [done|].
  destruct (fetch cloud (rp_uuid p)), (fetch cloud (rp_uuid q)); try done.
  by apply merge_provider_comm.
Qed.

Lemma fold_left_comm_permutation {A B} (f : B -> A -> B) (l l' : list A) :
  (forall b x y, f (f b x) y = f (f b y) x) ->
  l ≡ₚ l' -> forall b, fold_left f l b = fold_left f l' b.
Proof.
  intros Hf. induction 1 as [|x l l' _ IH|x y l|l l' l'' _ IH1 _ IH2];
    intros b; cbn [fold_left].
  - done.
  - apply IH.
  - by rewrite Hf.
  - by rewrite IH1.
Qed.

(** The read loop on mappings: it succeeds exactly when the allocations
    of every listed provider can be fetched, and then its tally denotes
    the fold of [merge_fetched]. *)
Lemma read_loop_view cloud listing :
  forall providers tally,
    match outcome (for_fold listing (read_provider cloud) (providers, tally))
    with
    | Ok st =>
        Forall (fun p => exists items, fetch cloud (rp_uuid p) = Ok items)
          listing /\
        tally_view st.2 =
          fold_left (merge_fetched cloud) listing (tally_view tally)
    | Raise e =>
        Exists (fun p => exists e', fetch cloud (rp_uuid p) = Raise e') listing
    end.
Proof.
  induction listing as [|p listing IH]; intros providers tally.
  - split; [constructor|done].
  - cbn [for_fold fold_left]. rewrite outcome_bind, read_provider_outcome.
    unfold merge_fetched at 2.
    destruct (fetch cloud (rp_uuid p)) as [items|e] eqn:Hfetch.
    + specialize (IH (dict_set (rp_uuid p) p providers)
                    (tally_provider (rp_uuid p) items tally)).
      rewrite tally_view_provider in IH.
      destruct (outcome (for_fold listing _ _)) as [st|e].
      * destruct IH as [Hall Hview]. split; [|done].
        constructor; [by exists items|done].
      * by apply Exists_cons_tl.
    + apply Exists_cons_hd. by exists e.
Qed.

Lemma fetch_with_listing cloud listing uuid :
  fetch (with_listing cloud listing) uuid = fetch cloud uuid.
Proof. done. Qed.

Lemma read_phase_with_listing cloud listing :
  outcome (read_phase (with_listing cloud listing)) =
  outcome (for_fold listing (read_provider (with_listing cloud listing))
             ([], [])).
Proof. by rewrite read_phase_outcome. Qed.

(** C8.  With the allocations of each provider fixed, reading the
    providers in any permutation of a listing gives the same mapping
    from instance uuid to provider uuid to allocation (and the read
    fails for one order exactly when it fails for the other). *)
Theorem tally_is_order_independent (cloud : Cloud)
    (listing listing' : list ResourceProvider) :
  listing ≡ₚ listing' ->
  match outcome (read_phase (with_listing cloud listing)),
        outcome (read_phase (with_listing cloud listing')) with
  | Ok (_, tally), Ok (_, tally') => tally_view tally = tally_view tally'
  | Raise _, Raise _ => True
  | _, _ => False
  end.
Proof.
  intros Hperm. rewrite !read_phase_with_listing.
  pose proof (read_loop_view (with_listing cloud listing) listing [] [])
    as H1.
  pose proof (read_loop_view (with_listing cloud listing') listing' [] [])
    as H2.
  destruct (outcome (for_fold listing _ _)) as [[ps t]|e],
           (outcome (for_fold listing' _ _)) as [[ps' t']|e'];
    cbn [snd] in *.
  - destruct H1 as [_ ->], H2 as [_ ->].
    apply (fold_left_comm_permutation
             (merge_fetched (with_listing cloud listing))); [|done].
    intros m p q. apply merge_fetched_comm.
  - destruct H1 as [Hall _]. rewrite Hperm in Hall.
    apply Exists_exists in H2 as (p & Hp & e & He).
    rewrite Forall_forall in Hall. destruct (Hall p Hp) as [items Hitems].
    rewrite fetch_with_listing in *. congruence.
  - destruct H2 as [Hall _]. rewrite <- Hperm in Hall.
    apply Exists_exists in H1 as (p & Hp & e' & He).
    rewrite Forall_forall in Hall. destruct (Hall p Hp) as [items Hitems].
    rewrite fetch_with_listing in *. congruence.
  - done.
Qed.

Lemma tally_is_order_independent_witness :
  match outcome (read_phase (with_listing (three_instance_cloud put_accepts)
                               [provider_A; provider_B])),
        outcome (read_phase (with_listing (three_instance_cloud put_accepts)
                               [provider_B; provider_A])) with
  | Ok (_, tally), Ok (_, tally') => tally_view tally = tally_view tally'
  | Raise _, Raise _ => True
  | _, _ => False
  end.
Proof.
  apply (tally_is_order_independent (three_instance_cloud put_accepts)
           [provider_A; provider_B] [provider_B; provider_A]).
  apply perm_swap.
Defined.

(** The dictionaries themselves keep the order of insertion, which does
    follow the order of the listing: here the entries of "i1" come out
    as p1, p2 for one order and p2, p1 for the other. *)
Example tally_insertion_order_follows_listing :
  outcome (read_phase (with_listing (three_instance_cloud put_accepts)
                         [provider_A; provider_B])) =
    Ok ([("p1", provider_A); ("p2", provider_B)],
        [("i1", [("p1", vcpu 2); ("p2", vcpu 2)]);
         ("i2", [("p1", vcpu 4); ("p2", vcpu 4)]);
         ("i3", [("p1", vcpu 1)])]) /\
  outcome (read_phase (with_listing (three_instance_cloud put_accepts)
                         [provider_B; provider_A])) =
    Ok ([("p2", provider_B); ("p1", provider_A)],
        [("i1", [("p2", vcpu 2); ("p1", vcpu 2)]);
         ("i2", [("p2", vcpu 4); ("p1", vcpu 4)]);
         ("i3", [("p1", vcpu 1)])]).
Proof. split; reflexivity. Qed.

(** ** Responses with an error status *)







(** * Further properties *)

(** ** The events of a run, phase by phase *)

Lemma dumps_app (t t' : list Event) : dumps (t ++ t') = dumps t ++ dumps t'.
Proof. unfold dumps. apply omap_app. Qed.

Lemma warnings_app (t t' : list Event) :
  warnings (t ++ t') = warnings t ++ warnings t'.
Proof. unfold warnings. apply omap_app. Qed.

Lemma is_info_silent (t : list Event) : Forall is_info t -> Forall silent t.
Proof. intros H. eapply Forall_impl; [exact H|]. by intros [[]| | |]. Qed.

Lemma is_info_dumps (t : list Event) : Forall is_info t -> dumps t = [].
Proof.
  unfold dumps. induction 1 as [|ev t Hev _ IH]; [done|].
  by destruct ev as [[]| | |].
Qed.

Lemma is_info_warnings (t : list Event) : Forall is_info t -> warnings t = [].
Proof.
  unfold warnings. induction 1 as [|ev t Hev _ IH]; [done|].
  by destruct ev as [[]| | |].
Qed.

Lemma read_phase_info cloud : Forall is_info (trace (read_phase cloud)).
Proof.
  unfold read_phase, list_resource_providers. prog_simpl.
  constructor; [done|]. rewrite app_nil_l.
  destruct (session_get_resource_providers cloud) as [res|e]; prog_simpl;
    [|constructor].
  apply for_fold_trace. intros st p. rewrite read_provider_trace. constructor.
Qed.

Lemma audit_phase_info cloud args providers tally :
  Forall is_info (trace (audit_phase cloud args providers tally)).
Proof.
  unfold audit_phase. prog_simpl. constructor; [done|].
  apply for_fold_trace. intros multiple [i allocs]. unfold audit_instance.
  destruct (_ && _); [constructor|].
  destruct (bool_decide _); [|constructor].
  prog_simpl. constructor; [done|].
  destruct (get_server cloud i) as [instance|e]; [|constructor].
  apply for_fold_trace. intros s x. rewrite classify_trace. constructor.
Qed.

Lemma classifier_info cloud args :
  Forall is_info (trace (classifier cloud args)).
Proof.
  unfold classifier. prog_simpl. apply Forall_app.
  split; [apply read_phase_info|].
  destruct (outcome (read_phase cloud)) as [[providers tally]|e];
    [apply audit_phase_info|constructor].
Qed.

Lemma dump_phase_events cloud args multiple :
  trace (dump_phase cloud args multiple) = dump_events cloud args multiple /\
  outcome (dump_phase cloud args multiple) =
    match output_json args with
    | Some path =>
        if bool_decide (path = "") then Ok tt else open_write cloud path
    | None => Ok tt
    end.
Proof.
  unfold dump_phase, dump_events.
  destruct (output_json args) as [path|]; [|done].
  destruct (bool_decide (path = "")); [done|]. prog_simpl.
  by destruct (open_write cloud path) as [[]|e].
Qed.

Lemma report_phase_events multiple :
  trace (report_phase multiple) = EvPrint <$> report_lines multiple.
Proof.
  unfold report_phase, dict_items, report_lines.
  assert (Hblock : forall entries,
             trace (for_each entries
                      (fun allocation =>
                         emit (EvPrint (report_line allocation)))) =
             EvPrint <$> map report_line entries /\
             outcome (for_each entries
                        (fun allocation =>
                           emit (EvPrint (report_line allocation)))) = Ok tt).
  { induction entries as [|e entries [IHt IHo]]; [done|].
    cbn [for_each map]. prog_simpl. by rewrite IHt, IHo. }
  induction multiple as [|[i info] multiple IH]; [done|].
  cbn [for_each map concat].
  change (report_instance (i, info))
    with (emit (EvPrint i) ;;
          for_each (c_allocations info)
            (fun allocation => emit (EvPrint (report_line allocation)))).
  destruct (Hblock (c_allocations info)) as [Ht Ho].
  destruct (report_phase_spec multiple) as (_ & _ & Hrest).
  prog_simpl. rewrite Ho, Ht, IH. unfold report_block. cbn [fst snd].
  by rewrite fmap_app, <- app_assoc.
Qed.

Lemma repair_scan_events cloud i allocations :
  trace (repair_scan cloud i allocations) =
  match first_active allocations with
  | Some allocation => repair_events (i, allocation_data allocation)
  | None => []
  end.
Proof.
  unfold first_active.
  induction allocations as [|allocation rest IH]; [done|].
  cbn [repair_scan find]. destruct (e_active allocation); [|exact IH].
  destruct (set_allocation_spec cloud i allocation) as [Ht _].
  prog_simpl. by rewrite Ht.
Qed.

Lemma repair_loop_events cloud multiple :
  trace (for_each (dict_items multiple) (repair_instance cloud)) =
  concat (map repair_events (run_puts cloud (planned_puts multiple)).1).
Proof.
  unfold dict_items.
  induction multiple as [|[i info] multiple IH]; [done|].
  rewrite planned_puts_cons. cbn [for_each].
  change (repair_instance cloud (i, info))
    with (repair_scan cloud i (c_allocations info)).
  destruct (repair_scan_spec cloud i (c_allocations info)) as (_ & _ & Ho).
  prog_simpl. rewrite Ho, repair_scan_events.
  destruct (first_active (c_allocations info)) as [allocation|].
  - cbn [run_puts].
    destruct (put_result cloud (i, allocation_data allocation)) as [[]|e].
    + rewrite IH. by destruct (run_puts cloud _).
    + by rewrite app_nil_r.
  - by rewrite IH.
Qed.

(** The trace of a whole run. *)
Lemma main_events cloud args :
  trace (main cloud args) =
  trace (classifier cloud args) ++
  match outcome (classifier cloud args) with
  | Ok multiple =>
      dump_events cloud args multiple ++
      match outcome (dump_phase cloud args multiple) with
      | Ok _ =>
          (EvPrint <$> report_lines multiple) ++
          (if repair args
           then concat (map repair_events
                          (run_puts cloud (planned_puts multiple)).1)
           else [])
      | Raise _ => []
      end
  | Raise _ => []
  end.
Proof.
  unfold main. rewrite trace_bind. f_equal.
  destruct (outcome (classifier cloud args)) as [multiple|e]; [|done].
  destruct (dump_phase_events cloud args multiple) as [Ht _].
  rewrite trace_bind, Ht. f_equal.
  destruct (outcome (dump_phase cloud args multiple)) as [[]|e]; [|done].
  destruct (report_phase_spec multiple) as (_ & _ & Ho).
  rewrite trace_bind, Ho, report_phase_events. f_equal.
  unfold repair_phase. destruct (repair args); [|done].
  apply repair_loop_events.
Qed.

Lemma prints_projections (lines : list string) :
  stdout (EvPrint <$> lines) = lines /\
  puts (EvPrint <$> lines) = [] /\
  dumps (EvPrint <$> lines) = [] /\
  warnings (EvPrint <$> lines) = [].
Proof.
  induction lines as [|line lines (IH1 & IH2 & IH3 & IH4)]; [done|].
  rewrite fmap_cons. repeat split; try done.
  change (stdout (EvPrint line :: ?t)) with (line :: stdout t). by rewrite IH1.
Qed.

Lemma repair_events_projections (calls : list (string * PutBody)) :
  puts (concat (map repair_events calls)) = calls /\
  stdout (concat (map repair_events calls)) = [] /\
  dumps (concat (map repair_events calls)) = [] /\
  warnings (concat (map repair_events calls)) =
    (fun call => "setting allocation for " +:+ call.1) <$> calls.
Proof.
  induction calls as [|[i data] calls (IH1 & IH2 & IH3 & IH4)]; [done|].
  cbn [map concat]. rewrite puts_app, stdout_app, dumps_app, warnings_app.
  rewrite IH1, IH2, IH3, IH4. by rewrite fmap_cons.
Qed.

Lemma dump_events_projections cloud args multiple :
  stdout (dump_events cloud args multiple) = [] /\
  puts (dump_events cloud args multiple) = [] /\
  warnings (dump_events cloud args multiple) = [].
Proof.
  unfold dump_events. destruct (output_json args) as [path|]; [|done].
  destruct (bool_decide (path = "")); [done|].
  by destruct (open_write cloud path).
Qed.

(** ** Runs without [--repair] *)

(** X1.  Without [--repair] a run never writes to placement, and it
    ends normally as soon as the classifier and the JSON export do:
    conflicts found are no failure. *)
Theorem audit_only_run_never_writes (cloud : Cloud) (args : Args) :
  repair args = false ->
  puts (trace (main cloud args)) = [] /\
  (forall multiple,
      outcome (classifier cloud args) = Ok multiple ->
      outcome (dump_phase cloud args multiple) = Ok tt ->
      outcome (main cloud args) = Ok tt).
Proof.
  intros Hrepair. split.
  - destruct (main_puts_prefix cloud args) as [Hnil|[Htrue _]]; [done|].
    congruence.
  - intros multiple Hc Hdump.
    pose proof (main_spec cloud args) as Hmain. cbv zeta in Hmain.
    rewrite Hc, Hdump, Hrepair in Hmain. apply Hmain.
Qed.

Lemma audit_only_run_never_writes_witness :
  puts (trace (main (three_instance_cloud put_accepts)
                 {| repair := false; limit := []; output_json := None |})) = [].
Proof.
  apply (audit_only_run_never_writes (three_instance_cloud put_accepts)
           {| repair := false; limit := []; output_json := None |}).
  reflexivity.
Defined.

(** ** Failures before the report *)

(** X2.  When the read phase or a compute lookup raises, the run ends
    with that exception and has printed nothing, exported nothing and
    written nothing. *)
Theorem classifier_failure_ends_run (cloud : Cloud) (args : Args) (e : exn) :
  outcome (classifier cloud args) = Raise e ->
  outcome (main cloud args) = Raise e /\
  stdout (trace (main cloud args)) = [] /\
  dumps (trace (main cloud args)) = [] /\
  puts (trace (main cloud args)) = [].
Proof.
  intros Hc. pose proof (main_spec cloud args) as Hmain. cbv zeta in Hmain.
  rewrite Hc in Hmain. destruct Hmain as (Hs & Hp & Ho).
  repeat split; try done.
  rewrite main_events, Hc, app_nil_r.
  apply is_info_dumps, classifier_info.
Qed.

Lemma classifier_failure_ends_run_witness :
  let cloud :=
    with_get_server (three_instance_cloud put_accepts)
      (fun _ => Raise (LibraryError "compute unreachable")) in
  outcome (main cloud repair_args) = Raise (LibraryError "compute unreachable")
  /\ stdout (trace (main cloud repair_args)) = []
  /\ dumps (trace (main cloud repair_args)) = []
  /\ puts (trace (main cloud repair_args)) = [].
Proof.
  intros cloud.
  apply (classifier_failure_ends_run cloud repair_args
           (LibraryError "compute unreachable")).
  reflexivity.
Defined.

(** ** The JSON export *)

(** X3.  The records are exported when [--output-json] names a
    non-empty path and the file can be opened, once, as the classifier
    produced them and whether or not [--repair] is given; an empty path
    exports nothing; when the file cannot be opened the run ends with
    that exception before anything is printed or written. *)
Theorem json_export_behaviour (cloud : Cloud) (args : Args)
    (multiple : dict ConflictRecord) :
  outcome (classifier cloud args) = Ok multiple ->
  dumps (trace (main cloud args)) =
    match output_json args with
    | Some path =>
        if bool_decide (path = "") then []
        else match open_write cloud path with
             | Ok _ => [(path, multiple)]
             | Raise _ => []
             end
    | None => []
    end /\
  (forall path e,
      output_json args = Some path -> path <> "" ->
      open_write cloud path = Raise e ->
      outcome (main cloud args) = Raise e /\
      stdout (trace (main cloud args)) = [] /\
      puts (trace (main cloud args)) = []).
Proof.
  intros Hc. split.
  - rewrite main_events, Hc, !dumps_app.
    rewrite (is_info_dumps _ (classifier_info cloud args)), app_nil_l.
    destruct (dump_phase_events cloud args multiple) as [_ Ho].
    assert (Hrest : dumps
              match outcome (dump_phase cloud args multiple) with
              | Ok _ =>
                  (EvPrint <$> report_lines multiple) ++
                  (if repair args
                   then concat (map repair_events
                                  (run_puts cloud (planned_puts multiple)).1)
                   else [])
              | Raise _ => []
              end = []).
    { destruct (outcome (dump_phase cloud args multiple)); [|done].
      rewrite dumps_app.
      destruct (prints_projections (report_lines multiple))
        as (_ & _ & -> & _).
      destruct (repair args); [|done].
      by destruct (repair_events_projections
                     (run_puts cloud (planned_puts multiple)).1)
        as (_ & _ & -> & _). }
    rewrite Hrest, app_nil_r. unfold dump_events.
    destruct (output_json args) as [path|]; [|done].
    destruct (bool_decide (path = "")); [done|].
    by destruct (open_write cloud path).
  - intros path e Hpath Hne Hopen.
    pose proof (main_spec cloud args) as Hmain. cbv zeta in Hmain.
    destruct (dump_phase_events cloud args multiple) as [_ Ho].
    rewrite Hpath, bool_decide_eq_false_2, Hopen in Ho by done.
    rewrite Hc, Ho in Hmain. tauto.
Qed.

Lemma json_export_behaviour_witness :
  let cloud :=
    with_open_write
      (scenario_cloud [("VCPU", 2)] [("VCPU", 4)] (Ok None) put_accepts)
      (fun _ => Raise (LibraryError "IOError")) in
  let args :=
    {| repair := true; limit := []; output_json := Some "out.json" |} in
  outcome (main cloud args) = Raise (LibraryError "IOError") /\
  stdout (trace (main cloud args)) = [] /\
  puts (trace (main cloud args)) = [].
Proof.
  intros cloud args.
  apply (proj2 (json_export_behaviour cloud args
                  [("i1",
                    {| c_uuid := "i1"; c_active := None;
                       c_allocations :=
                         [ {| e_provider := provider_A; e_active := false;
                              e_allocation := vcpu 2 |};
                           {| e_provider := provider_B; e_active := false;
                              e_allocation := vcpu 4 |} ] |})]
                  eq_refl) "out.json" (LibraryError "IOError")).
  - reflexivity.
  - discriminate.
  - reflexivity.
Defined.

(** ** The report *)

(** The run up to the repair does not look at [--repair] nor at the
    answers to writes. *)
Lemma classifier_ignores_repair cloud args flag put :
  classifier (with_put cloud put) (with_repair args flag) =
  classifier cloud args.
Proof. reflexivity. Qed.

Lemma dump_phase_ignores_repair cloud args flag put multiple :
  dump_phase (with_put cloud put) (with_repair args flag) multiple =
  dump_phase cloud args multiple.
Proof. reflexivity. Qed.

(** X4.  What a run prints and exports is the same with and without
    [--repair], and however the placement service answers the writes:
    the report is that of the audit, not of the repair. *)
Theorem report_ignores_repair (cloud : Cloud) (args : Args) (flag : bool)
    (put : string -> PutBody -> Result (Response unit)) :
  stdout (trace (main (with_put cloud put) (with_repair args flag))) =
    stdout (trace (main cloud args)) /\
  dumps (trace (main (with_put cloud put) (with_repair args flag))) =
    dumps (trace (main cloud args)).
Proof.
  assert (Hrepair : forall c a m,
             stdout (if repair a
                     then concat (map repair_events
                                    (run_puts c (planned_puts m)).1)
                     else []) = [] /\
             dumps (if repair a
                    then concat (map repair_events
                                   (run_puts c (planned_puts m)).1)
                    else []) = []).
  { intros c a m. destruct (repair a); [|done].
    destruct (repair_events_projections (run_puts c (planned_puts m)).1)
      as (_ & -> & -> & _). done. }
  rewrite !main_events, classifier_ignores_repair.
  rewrite !stdout_app, !dumps_app. split; f_equal.
  - destruct (outcome (classifier cloud args)) as [multiple|e]; [|done].
    rewrite dump_phase_ignores_repair, !stdout_app.
    change (dump_events (with_put cloud put) (with_repair args flag) multiple)
      with (dump_events cloud args multiple).
    f_equal. destruct (outcome (dump_phase cloud args multiple)); [|done].
    rewrite !stdout_app. f_equal.
    destruct (Hrepair (with_put cloud put) (with_repair args flag) multiple)
      as [-> _].
    by destruct (Hrepair cloud args multiple) as [-> _].
  - destruct (outcome (classifier cloud args)) as [multiple|e]; [|done].
    rewrite dump_phase_ignores_repair, !dumps_app.
    change (dump_events (with_put cloud put) (with_repair args flag) multiple)
      with (dump_events cloud args multiple).
    f_equal. destruct (outcome (dump_phase cloud args multiple)); [|done].
    rewrite !dumps_app. f_equal.
    destruct (Hrepair (with_put cloud put) (with_repair args flag) multiple)
      as [_ ->].
    by destruct (Hrepair cloud args multiple) as [_ ->].
Qed.

Lemma report_lines_length multiple :
  length (report_lines multiple) =
  (length multiple +
   length (concat (map (fun item => c_allocations item.2) multiple)))%nat.
Proof.
  unfold report_lines.
  induction multiple as [|[i info] multiple IH]; [done|].
  cbn [map concat]. unfold report_block at 1. cbn [fst snd length].
  rewrite !length_app, IH. cbn [length]. rewrite List.length_map. lia.
Qed.

(** X5.  When the run reaches the report, it prints, for each conflict
    record in the order of [multiple], the instance uuid and then one
    line for each entry in the order of the entries, ["* name"] for an
    active entry and ["- name"] for an inactive one, and nothing else. *)
Theorem report_lists_every_record (cloud : Cloud) (args : Args)
    (multiple : dict ConflictRecord) :
  outcome (classifier cloud args) = Ok multiple ->
  outcome (dump_phase cloud args multiple) = Ok tt ->
  stdout (trace (main cloud args)) =
  concat
    (map (fun item : string * ConflictRecord =>
            item.1 ::
            map (fun e => (if e_active e then "* " else "- ")
                          +:+ rp_name (e_provider e))
              (c_allocations item.2))
       (dict_items multiple)) /\
  length (stdout (trace (main cloud args))) =
    (length multiple +
     length (concat (map (fun item => c_allocations item.2) multiple)))%nat.
Proof.
  intros Hc Hdump.
  pose proof (main_spec cloud args) as Hmain. cbv zeta in Hmain.
  rewrite Hc, Hdump in Hmain. destruct Hmain as (-> & _).
  unfold report_lines, dict_items. split.
  - f_equal. apply map_ext. intros [i info]. unfold report_block.
    cbn [fst snd]. f_equal. apply map_ext. intros e. unfold report_line.
    by destruct (e_active e).
  - apply report_lines_length.
Qed.

Lemma report_lists_every_record_witness :
  stdout (trace (main (three_instance_cloud put_conflict_on_i1) repair_args)) =
  ["i1"; "* hostA"; "- hostB"; "i2"; "- hostA"; "* hostB"].
Proof.
  apply (proj1 (report_lists_every_record
                  (three_instance_cloud put_conflict_on_i1) repair_args
                  [("i1",
                    {| c_uuid := "i1"; c_active := Some "hostA";
                       c_allocations :=
                         [ {| e_provider := provider_A; e_active := true;
                              e_allocation := vcpu 2 |};
                           {| e_provider := provider_B; e_active := false;
                              e_allocation := vcpu 2 |} ] |});
                   ("i2",
                    {| c_uuid := "i2"; c_active := Some "hostB";
                       c_allocations :=
                         [ {| e_provider := provider_A; e_active := false;
                              e_allocation := vcpu 4 |};
                           {| e_provider := provider_B; e_active := true;
                              e_allocation := vcpu 4 |} ] |})]
                  eq_refl eq_refl)).
Defined.

(** ** Order of the effects *)

(** A run's trace ends with the warning and the [PUT] of each write it
    issued; what comes before holds no write and no warning. *)
Lemma main_trace_split cloud args :
  exists before,
    trace (main cloud args) =
      before ++ concat (map repair_events (puts (trace (main cloud args)))) /\
    puts before = [] /\ warnings before = [].
Proof.
  pose proof (classifier_info cloud args) as Hinfo.
  rewrite main_events.
  destruct (outcome (classifier cloud args)) as [multiple|e].
  2: { exists (trace (classifier cloud args)).
       rewrite !app_nil_r.
       rewrite (puts_nil _ (silent_not_put _ (is_info_silent _ Hinfo))).
       split; [by rewrite app_nil_r|].
       split; [done|by apply is_info_warnings]. }
  destruct (dump_events_projections cloud args multiple) as (_ & Hdp & Hdw).
  destruct (outcome (dump_phase cloud args multiple)).
  2: { exists (trace (classifier cloud args) ++
               dump_events cloud args multiple).
       rewrite !app_nil_r, puts_app, warnings_app, Hdp, Hdw.
       rewrite (puts_nil _ (silent_not_put _ (is_info_silent _ Hinfo))).
       rewrite (is_info_warnings _ Hinfo).
       split; [by rewrite app_nil_r|done]. }
  destruct (prints_projections (report_lines multiple))
    as (_ & Hrp & _ & Hrw).
  exists (trace (classifier cloud args) ++ dump_events cloud args multiple ++
          (EvPrint <$> report_lines multiple)).
  assert (Hbefore :
            puts (trace (classifier cloud args) ++
                  dump_events cloud args multiple ++
                  (EvPrint <$> report_lines multiple)) = [] /\
            warnings (trace (classifier cloud args) ++
                      dump_events cloud args multiple ++
                      (EvPrint <$> report_lines multiple)) = []).
  { rewrite !puts_app, !warnings_app, Hdp, Hdw, Hrp, Hrw.
    rewrite (puts_nil _ (silent_not_put _ (is_info_silent _ Hinfo))).
    by rewrite (is_info_warnings _ Hinfo). }
  split; [|exact Hbefore].
  rewrite !puts_app, Hdp, Hrp.
  rewrite (puts_nil _ (silent_not_put _ (is_info_silent _ Hinfo))).
  cbn [app]. rewrite <- !app_assoc. do 3 f_equal.
  destruct (repair args); [|done].
  by destruct (repair_events_projections
                 (run_puts cloud (planned_puts multiple)).1) as (-> & _).
Qed.

(** X6.  In every run the writes come last: the whole report and the
    JSON export are done before the first write is issued, and each
    write follows directly the warning that announces it. *)
Theorem writes_come_last (cloud : Cloud) (args : Args) :
  exists before,
    trace (main cloud args) =
      before ++ concat (map repair_events (puts (trace (main cloud args)))) /\
    puts before = [] /\
    stdout before = stdout (trace (main cloud args)) /\
    dumps before = dumps (trace (main cloud args)).
Proof.
  destruct (main_trace_split cloud args) as (before & Hsplit & Hputs & _).
  exists before. split; [done|]. split; [done|].
  destruct (repair_events_projections (puts (trace (main cloud args))))
    as (_ & Hs & Hd & _).
  split.
  - rewrite Hsplit at 1. by rewrite stdout_app, Hs, app_nil_r.
  - rewrite Hsplit at 1. by rewrite dumps_app, Hd, app_nil_r.
Qed.

(** X7.  The warnings a run logs are, in order, one
    ["setting allocation for <uuid>"] for each write it issues: at the
    default log level the operator sees exactly the instances written. *)
Theorem one_warning_per_write (cloud : Cloud) (args : Args) :
  warnings (trace (main cloud args)) =
  (fun call => "setting allocation for " +:+ call.1)
    <$> puts (trace (main cloud args)).
Proof.
  destruct (main_trace_split cloud args) as (before & Hsplit & _ & Hwarn).
  rewrite Hsplit at 1. rewrite warnings_app, Hwarn.
  by destruct (repair_events_projections (puts (trace (main cloud args))))
    as (_ & _ & _ & ->).
Qed.

(** ** Which instances are written *)

Lemma first_active_has_active (item : string * ConflictRecord) :
  is_Some (first_active (c_allocations item.2)) <-> has_active item = true.
Proof.
  unfold first_active, has_active.
  induction (c_allocations item.2) as [|e entries IH]; cbn [find existsb].
  - split; [by intros [? ?]|done].
  - destruct (e_active e); [|exact IH]. split; [done|by eexists].
Qed.

Lemma planned_puts_keys (multiple : list (string * ConflictRecord)) :
  (planned_puts multiple).*1 =
  (filter (fun item => has_active item = true) multiple).*1.
Proof.
  induction multiple as [|[i info] multiple IH]; [done|].
  rewrite planned_puts_cons, filter_cons.
  pose proof (first_active_has_active (i, info)) as Hiff. cbn [snd] in Hiff.
  destruct (first_active (c_allocations info)) as [allocation|].
  - rewrite decide_True by (apply Hiff; by eexists).
    by rewrite !fmap_cons, IH.
  - rewrite decide_False; [done|].
    intros Hact. apply Hiff in Hact. by destruct Hact.
Qed.

(** X8.  With [--repair], once the report is printed, the instances
    written are, in the order of the report, the reported instances that
    have a ["*"] line: all of them when the run ends normally, and in any
    case those up to the first write that fails. *)
Theorem writes_are_the_starred_instances (cloud : Cloud) (args : Args)
    (multiple : dict ConflictRecord) :
  repair args = true ->
  outcome (classifier cloud args) = Ok multiple ->
  outcome (dump_phase cloud args multiple) = Ok tt ->
  (puts (trace (main cloud args))).*1 `prefix_of`
    (filter (fun item => has_active item = true) (dict_items multiple)).*1 /\
  (outcome (main cloud args) = Ok tt ->
   (puts (trace (main cloud args))).*1 =
   (filter (fun item => has_active item = true) (dict_items multiple)).*1).
Proof.
  intros Hrepair Hc Hdump. unfold dict_items.
  pose proof (main_spec cloud args) as Hmain. cbv zeta in Hmain.
  rewrite Hc, Hdump, Hrepair in Hmain. destruct Hmain as (_ & -> & ->).
  rewrite <- planned_puts_keys. split.
  - destruct (run_puts_prefix cloud (planned_puts multiple)) as [rest Hrest].
    exists (rest.*1). rewrite Hrest at 1. by rewrite fmap_app.
  - intros Hok. by rewrite run_puts_Ok.
Qed.

Lemma writes_are_the_starred_instances_witness :
  (puts (trace (main (three_instance_cloud put_accepts) repair_args))).*1 =
  ["i1"; "i2"].
Proof.
  apply (proj2 (writes_are_the_starred_instances
                  (three_instance_cloud put_accepts) repair_args
                  [("i1",
                    {| c_uuid := "i1"; c_active := Some "hostA";
                       c_allocations :=
                         [ {| e_provider := provider_A; e_active := true;
                              e_allocation := vcpu 2 |};
                           {| e_provider := provider_B; e_active := false;
                              e_allocation := vcpu 2 |} ] |});
                   ("i2",
                    {| c_uuid := "i2"; c_active := Some "hostB";
                       c_allocations :=
                         [ {| e_provider := provider_A; e_active := false;
                              e_allocation := vcpu 4 |};
                           {| e_provider := provider_B; e_active := true;
                              e_allocation := vcpu 4 |} ] |})]
                  eq_refl eq_refl eq_refl)).
  reflexivity.
Defined.

(** ** What the tally holds *)

Lemma view_get_merge_allocation i' u' a' m i u :
  view_get (merge_allocation i' u' a' m) i u =
  if decide (i' = i /\ u' = u) then Some a' else view_get m i u.
Proof.
  unfold view_get, merge_allocation. rewrite lookup_insert.
  destruct (decide (i' = i)) as [->|Hi]; cbn [mbind option_bind].
  - rewrite lookup_insert.
    destruct (decide (u' = u)) as [->|Hu].
    + by rewrite decide_True.
    + rewrite decide_False by tauto. by destruct (m !! i).
  - by rewrite decide_False by tauto.
Qed.

Lemma merge_provider_snoc u items i a m :
  merge_provider u (items ++ [(i, a)]) m =
  merge_allocation i u a (merge_provider u items m).
Proof. unfold merge_provider. by rewrite fold_left_app. Qed.

Lemma view_get_merge_provider u' items m i u :
  view_get (merge_provider u' items m) i u =
  if decide (u' = u)
  then match dict_get i (reverse items) with
       | Some a => Some a
       | None => view_get m i u
       end
  else view_get m i u.
Proof.
  induction items as [|[i0 a0] items IH] using rev_ind.
  - by destruct (decide (u' = u)).
  - rewrite merge_provider_snoc, view_get_merge_allocation, IH.
    rewrite reverse_snoc. cbn [dict_get].
    destruct (decide (u' = u)) as [->|Hu].
    + destruct (decide (i = i0)) as [->|Hi].
      * by rewrite decide_True.
      * rewrite decide_False; [done|]. intros [? _]. congruence.
    + rewrite decide_False; [done|tauto].
Qed.

Lemma view_get_merge_fetched cloud m p i u :
  view_get (merge_fetched cloud m p) i u =
  if decide (rp_uuid p = u)
  then match fetched cloud i u with
       | Some a => Some a
       | None => view_get m i u
       end
  else view_get m i u.
Proof.
  unfold merge_fetched, fetched.
  destruct (decide (rp_uuid p = u)) as [<-|Hu].
  - destruct (fetch cloud (rp_uuid p)) as [items|e]; [|done].
    by rewrite view_get_merge_provider, decide_True.
  - destruct (fetch cloud (rp_uuid p)) as [items|e]; [|done].
    by rewrite view_get_merge_provider, decide_False.
Qed.

Lemma view_get_fold_fetched cloud listing :
  forall m i u,
    view_get (fold_left (merge_fetched cloud) listing m) i u =
    if decide (u ∈ rp_uuid <$> listing)
    then match fetched cloud i u with
         | Some a => Some a
         | None => view_get m i u
         end
    else view_get m i u.
Proof.
  induction listing as [|p listing IH]; intros m i u.
  - cbn [fold_left]. rewrite decide_False; [done|apply not_elem_of_nil].
  - cbn [fold_left]. rewrite IH, view_get_merge_fetched, fmap_cons.
    destruct (decide (rp_uuid p = u)) as [Hp|Hp].
    + rewrite (decide_True (P := u ∈ rp_uuid p :: (rp_uuid <$> listing)))
        by (rewrite Hp; left).
      destruct (decide (u ∈ rp_uuid <$> listing));
        by destruct (fetched cloud i u).
    + destruct (decide (u ∈ rp_uuid <$> listing)) as [Hin|Hin].
      * by rewrite decide_True by (by right).
      * rewrite decide_False; [done|].
        rewrite not_elem_of_cons. split; [congruence|done].
Qed.

Lemma tally_get_view tally i u :
  tally_get tally i u = view_get (tally_view tally) i u.
Proof.
  unfold tally_get, view_get. rewrite tally_view_lookup.
  destruct (dict_get i tally) as [allocs|]; [|done].
  cbn [fmap option_fmap option_map mbind option_bind].
  by rewrite dict_map_lookup.
Qed.

Lemma read_phase_listing cloud providers tally :
  outcome (read_phase cloud) = Ok (providers, tally) ->
  exists listing,
    listing_of cloud = Ok listing /\
    outcome (for_fold listing (read_provider cloud)
               (([] : dict ResourceProvider), ([] : dict (dict Allocation)))) =
      Ok (providers, tally).
Proof.
  rewrite read_phase_outcome. unfold listing_of.
  destruct (session_get_resource_providers cloud) as [res|e]; [|done].
  intros Hloop. eexists. split; [reflexivity|exact Hloop].
Qed.

(** X9.  After a successful read phase, [tally[instance][provider]] is
    there exactly for the listed providers whose allocations name the
    instance, and it is the allocation that provider lists for the
    instance: no allocation of a listed provider is lost, none is
    invented, and a provider that is not listed contributes nothing. *)
Theorem tally_holds_the_fetched_allocations (cloud : Cloud)
    (providers : dict ResourceProvider) (tally : dict (dict Allocation)) :
  outcome (read_phase cloud) = Ok (providers, tally) ->
  exists listing,
    listing_of cloud = Ok listing /\
    forall instance_uuid provider_uuid,
      tally_get tally instance_uuid provider_uuid =
      if decide (provider_uuid ∈ rp_uuid <$> listing)
      then fetched cloud instance_uuid provider_uuid
      else None.
Proof.
  intros (listing & Hlisting & Hloop)%read_phase_listing.
  exists listing. split; [done|]. intros i u.
  pose proof (read_loop_view cloud listing [] []) as Hview.
  rewrite Hloop in Hview. destruct Hview as [_ Hview]. cbn [snd] in Hview.
  rewrite tally_get_view, Hview, view_get_fold_fetched.
  destruct (decide (u ∈ rp_uuid <$> listing)); [|done].
  by destruct (fetched cloud i u).
Qed.

Lemma tally_holds_the_fetched_allocations_witness :
  exists listing,
    listing_of (three_instance_cloud put_accepts) = Ok listing /\
    forall instance_uuid provider_uuid,
      tally_get
        [("i1", [("p1", vcpu 2); ("p2", vcpu 2)]);
         ("i2", [("p1", vcpu 4); ("p2", vcpu 4)]);
         ("i3", [("p1", vcpu 1)])] instance_uuid provider_uuid =
      if decide (provider_uuid ∈ rp_uuid <$> listing)
      then fetched (three_instance_cloud put_accepts)
             instance_uuid provider_uuid
      else None.
Proof.
  apply (tally_holds_the_fetched_allocations
           (three_instance_cloud put_accepts)
           [("p1", provider_A); ("p2", provider_B)]).
  reflexivity.
Defined.

(** For a decoded JSON object, which has each key once, the last item
    under a key is the item under that key. *)
Lemma dict_get_reverse {V} (k : string) (d : dict V) :
  NoDup d.*1 -> dict_get k (reverse d) = dict_get k d.
Proof.
  intros Hnd. destruct (dict_get k d) as [v|] eqn:Hget.
  - apply elem_of_dict_get.
    + by rewrite fmap_reverse, reverse_Permutation.
    + apply elem_of_reverse. by apply dict_get_elem_of.
  - apply dict_get_None. rewrite fmap_reverse, elem_of_reverse.
    by apply dict_get_None.
Qed.

Lemma dict_set_not_nil {V} (k : string) (v : V) (d : dict V) :
  dict_set k v d <> [].
Proof. destruct d as [|[k' v'] d]; simpl; [done|]. by destruct (decide _). Qed.

Lemma tally_provider_nonempty u items :
  forall tally,
    (forall i allocs, dict_get i tally = Some allocs -> allocs <> []) ->
    forall i allocs,
      dict_get i (tally_provider u items tally) = Some allocs -> allocs <> [].
Proof.
  unfold tally_provider, dict_items.
  induction items as [|[i0 a0] items IH]; intros tally Hinv; [done|].
  cbn [fold_left]. apply IH. intros i allocs.
  rewrite dict_get_tally_add. destruct (decide (i0 = i)); [|apply Hinv].
  intros [= <-]. apply dict_set_not_nil.
Qed.

(** X10.  Every instance the tally holds has at least one allocation:
    an entry is created only to receive an allocation, so the case of an
    instance with no allocation does not occur. *)
Theorem tally_entries_are_not_empty (cloud : Cloud)
    (providers : dict ResourceProvider) (tally : dict (dict Allocation))
    (instance_uuid : string) (allocations : dict Allocation) :
  outcome (read_phase cloud) = Ok (providers, tally) ->
  (instance_uuid, allocations) ∈ dict_items tally ->
  (0 < dict_len allocations)%nat.
Proof.
  intros Hread Hin.
  pose proof (read_phase_inv _ _ _ Hread) as Hinv.
  apply read_phase_listing in Hread as (listing & _ & Hloop).
  assert (Hall : forall i allocs,
             dict_get i tally = Some allocs -> allocs <> []).
  { refine (for_fold_inv
              (fun _ (st : dict ResourceProvider * dict (dict Allocation)) =>
                 forall i allocs,
                   dict_get i st.2 = Some allocs -> allocs <> [])
              (read_provider cloud) listing _ _ _ (providers, tally) Hloop).
    - done.
    - intros pre p post [ps t] [ps' t'] _ Hpre.
      rewrite read_provider_outcome.
      destruct (fetch cloud (rp_uuid p)) as [items|e]; [|done].
      intros [= <- <-]. cbn [snd] in *. by apply tally_provider_nonempty. }
  assert (allocations <> []) as Hne.
  { apply (Hall instance_uuid). apply elem_of_dict_get; [apply Hinv|done]. }
  unfold dict_len. destruct allocations; [done|simpl; lia].
Qed.

Lemma tally_entries_are_not_empty_witness :
  (0 < dict_len [("p1", vcpu 1)])%nat.
Proof.
  apply (tally_entries_are_not_empty (three_instance_cloud put_accepts)
           [("p1", provider_A); ("p2", provider_B)]
           [("i1", [("p1", vcpu 2); ("p2", vcpu 2)]);
            ("i2", [("p1", vcpu 4); ("p2", vcpu 4)]);
            ("i3", [("p1", vcpu 1)])]
           "i3" [("p1", vcpu 1)]).
  - reflexivity.
  - right. right. left.
Defined.

(** ** What [providers] holds *)

Lemma last_listed_snoc listing p uuid :
  last_listed (listing ++ [p]) uuid =
  if decide (rp_uuid p = uuid) then Some p else last_listed listing uuid.
Proof.
  unfold last_listed. rewrite reverse_snoc. cbn [find].
  destruct (decide (rp_uuid p = uuid)).
  - by rewrite bool_decide_eq_true_2.
  - by rewrite bool_decide_eq_false_2.
Qed.

Lemma last_listed_Some listing uuid p :
  last_listed listing uuid = Some p -> p ∈ listing /\ rp_uuid p = uuid.
Proof.
  unfold last_listed. intros Hfind. apply find_some in Hfind as [Hin Hb].
  apply bool_decide_eq_true in Hb. split; [|done].
  apply elem_of_reverse. by apply list_elem_of_In.
Qed.

Lemma last_listed_is_Some listing uuid :
  is_Some (last_listed listing uuid) <-> uuid ∈ rp_uuid <$> listing.
Proof.
  induction listing as [|p listing IH] using rev_ind.
  - split; [by intros [? ?]|by intros ?%elem_of_nil].
  - rewrite last_listed_snoc, fmap_app, elem_of_app.
    cbn [fmap list_fmap]. rewrite list_elem_of_singleton.
    destruct (decide (rp_uuid p = uuid)).
    + split; [auto|by eexists].
    + rewrite IH. split; [auto|]. intros [?|?]; [done|congruence].
Qed.

(** X11.  After a successful read phase, [providers] has a key for
    exactly the uuids of the listing, and files under a uuid the last
    listed provider with that uuid, which is a provider of the listing:
    the names the classifier compares come from the listing alone. *)
Theorem providers_are_the_listed_ones (cloud : Cloud)
    (providers : dict ResourceProvider) (tally : dict (dict Allocation)) :
  outcome (read_phase cloud) = Ok (providers, tally) ->
  exists listing,
    listing_of cloud = Ok listing /\
    (forall uuid, dict_get uuid providers = last_listed listing uuid) /\
    (forall uuid, is_Some (dict_get uuid providers) <->
                  uuid ∈ rp_uuid <$> listing) /\
    (forall uuid provider,
        dict_get uuid providers = Some provider ->
        provider ∈ listing /\ rp_uuid provider = uuid).
Proof.
  intros (listing & Hlisting & Hloop)%read_phase_listing.
  exists listing. split; [done|].
  assert (Hlast : forall uuid,
             dict_get uuid providers = last_listed listing uuid).
  { refine (for_fold_inv
              (fun pre (st : dict ResourceProvider * dict (dict Allocation)) =>
                 forall uuid, dict_get uuid st.1 = last_listed pre uuid)
              (read_provider cloud) listing _ _ _ (providers, tally) Hloop).
    - done.
    - intros pre p post [ps t] [ps' t'] _ Hpre.
      rewrite read_provider_outcome.
      destruct (fetch cloud (rp_uuid p)) as [items|e]; [|done].
      intros [= <- <-] uuid. cbn [fst] in *.
      by rewrite dict_get_set, last_listed_snoc, Hpre. }
  split; [done|]. split.
  - intros uuid. rewrite Hlast. apply last_listed_is_Some.
  - intros uuid provider. rewrite Hlast. apply last_listed_Some.
Qed.

Lemma providers_are_the_listed_ones_witness :
  exists listing,
    listing_of (three_instance_cloud put_accepts) = Ok listing /\
    (forall uuid,
        dict_get uuid [("p1", provider_A); ("p2", provider_B)] =
        last_listed listing uuid) /\
    (forall uuid,
        is_Some (dict_get uuid [("p1", provider_A); ("p2", provider_B)]) <->
        uuid ∈ rp_uuid <$> listing) /\
    (forall uuid provider,
        dict_get uuid [("p1", provider_A); ("p2", provider_B)] =
          Some provider ->
        provider ∈ listing /\ rp_uuid provider = uuid).
Proof.
  apply (providers_are_the_listed_ones (three_instance_cloud put_accepts)
           [("p1", provider_A); ("p2", provider_B)]
           [("i1", [("p1", vcpu 2); ("p2", vcpu 2)]);
            ("i2", [("p1", vcpu 4); ("p2", vcpu 4)]);
            ("i3", [("p1", vcpu 1)])]).
  reflexivity.
Defined.

(** ** What the classifier keeps *)

Lemma entries_follow_allocations providers host entries allocs :
  (forall u p, dict_get u providers = Some p -> rp_uuid p = u) ->
  Forall2 (entry_rel providers host) entries allocs ->
  (fun e => rp_uuid (e_provider e)) <$> entries = allocs.*1 /\
  e_allocation <$> entries = allocs.*2.
Proof.
  intros Huuid. induction 1 as [|e [u a] entries allocs Hrel _ [IH1 IH2]];
    [done|].
  destruct Hrel as (Hget & Halloc & _). cbn [fst snd] in *.
  rewrite !fmap_cons, IH1, IH2. cbn [fst snd].
  by rewrite (Huuid _ _ Hget), Halloc.
Qed.

(** X12.  A successful classifier keeps exactly the instances of the
    tally that have more than one allocation and that [--limit] allows
    (every instance when no limit is given), in the order of the tally;
    the entries of a record are the allocations of the instance, one for
    each provider and in the order of the instance's tally entry. *)
Theorem classifier_keeps_the_conflicts (cloud : Cloud) (args : Args)
    (multiple : dict ConflictRecord) :
  outcome (classifier cloud args) = Ok multiple ->
  exists providers tally,
    outcome (read_phase cloud) = Ok (providers, tally) /\
    multiple.*1 `sublist_of` tally.*1 /\
    (forall instance_uuid,
        is_Some (dict_get instance_uuid multiple) <->
        exists allocations,
          dict_get instance_uuid tally = Some allocations /\
          (limit args = [] \/ instance_uuid ∈ limit args) /\
          (1 < dict_len allocations)%nat) /\
    (forall instance_uuid info,
        dict_get instance_uuid multiple = Some info ->
        exists allocations,
          dict_get instance_uuid tally = Some allocations /\
          c_uuid info = instance_uuid /\
          (fun e => rp_uuid (e_provider e)) <$> c_allocations info =
            allocations.*1 /\
          e_allocation <$> c_allocations info = allocations.*2).
Proof.
  intros Hc.
  destruct (classifier_Ok _ _ _ Hc)
    as (providers & tally & Hread & _ & Hinv & Hall).
  exists providers, tally. split; [done|].
  pose proof (record_rel_keys _ _ _ _ Hall) as Hkeys.
  split; [|split].
  - rewrite Hkeys. apply fmap_sublist, sublist_filter.
  - intros i. rewrite dict_get_is_Some, Hkeys. split.
    + intros ([i' allocs] & Ei & Hin)%list_elem_of_fmap. cbn [fst] in Ei.
      subst i'. apply list_elem_of_filter in Hin as [Hsel Hin].
      apply Is_true_true, selected_true in Hsel as [Hlim Hlen].
      exists allocs. split; [|done].
      apply elem_of_dict_get; [apply Hinv|done].
    + intros (allocs & Hget & Hlim & Hlen).
      apply (list_elem_of_fmap_2 fst _ (i, allocs)).
      apply list_elem_of_filter. split; [|by apply dict_get_elem_of].
      apply Is_true_true. unfold selected. cbn [fst snd].
      rewrite (bool_decide_eq_true_2 _ Hlen), andb_true_r.
      destruct Hlim as [Hnil|Hin].
      * by rewrite (bool_decide_eq_true_2 _ Hnil).
      * by rewrite (bool_decide_eq_true_2 _ Hin), orb_true_r.
  - intros i info Hget. apply dict_get_elem_of in Hget.
    destruct (classifier_record _ _ _ _ _ Hc Hget)
      as (providers' & tally' & allocs & Hread' & Hinv' & Htally & _ & Hrel).
    rewrite Hread in Hread'. injection Hread' as <- <-.
    exists allocs. split; [done|].
    destruct Hrel as (_ & Huuid & _ & Hentries). cbn [fst snd] in *.
    split; [done|].
    apply (entries_follow_allocations providers (c_active info)); [|done].
    apply Hinv.
Qed.

Lemma classifier_keeps_the_conflicts_witness :
  exists providers tally,
    outcome (read_phase (three_instance_cloud put_accepts)) =
      Ok (providers, tally) /\
    ["i1"; "i2"] `sublist_of` tally.*1.
Proof.
  destruct (classifier_keeps_the_conflicts
              (three_instance_cloud put_accepts) repair_args
              [("i1",
                {| c_uuid := "i1"; c_active := Some "hostA";
                   c_allocations :=
                     [ {| e_provider := provider_A; e_active := true;
                          e_allocation := vcpu 2 |};
                       {| e_provider := provider_B; e_active := false;
                          e_allocation := vcpu 2 |} ] |});
               ("i2",
                {| c_uuid := "i2"; c_active := Some "hostB";
                   c_allocations :=
                     [ {| e_provider := provider_A; e_active := false;
                          e_allocation := vcpu 4 |};
                       {| e_provider := provider_B; e_active := true;
                          e_allocation := vcpu 4 |} ] |})]
              eq_refl)
    as (providers & tally & Hread & Hsub & _).
  by exists providers, tally.
Defined.

(** ** What a write says *)

(** X13.  Every write a run issues is for an instance that the compute
    service knows, names as its single resource provider a provider that
    is filed in [providers] and whose name is the host the compute
    service reports for the instance, and carries the resources that the
    tally holds for the instance on that provider. *)
Theorem writes_follow_the_compute_host (cloud : Cloud) (args : Args)
    (instance_uuid : string) (data : PutBody) :
  (instance_uuid, data) ∈ puts (trace (main cloud args)) ->
  exists providers tally server provider allocation,
    outcome (read_phase cloud) = Ok (providers, tally) /\
    get_server cloud instance_uuid = Ok (Some server) /\
    hypervisor_hostname server = Some (rp_name provider) /\
    dict_get (rp_uuid provider) providers = Some provider /\
    tally_get tally instance_uuid (rp_uuid provider) = Some allocation /\
    data =
      {| body_allocations :=
           [ {| resource_provider_uuid := rp_uuid provider;
                req_resources := resources allocation |} ] |}.
Proof.
  intros Hin.
  apply main_puts_elem in Hin
    as (_ & multiple & info & e & Hc & Hin & Hfirst & ->).
  destruct (classifier_record _ _ _ _ _ Hc Hin)
    as (providers & tally & allocs & Hread & Hinv & Htally & _ & Hrel).
  destruct Hrel as (_ & _ & (instance & Hsrv & Hhost) & Hentries).
  cbn [fst snd] in *.
  apply first_active_Some in Hfirst as (before & after & Hsplit & _ & Hact).
  assert (He : e ∈ c_allocations info).
  { rewrite Hsplit. apply elem_of_app. right. left. }
  destruct (Forall2_elem_of_left _ _ _ _ Hentries He)
    as ([u a] & Hua & Hget & Halloc & Hiff).
  cbn [fst snd] in *. apply Hiff in Hact.
  pose proof (inv_providers_uuid _ _ Hinv _ _ Hget) as Hu.
  rewrite Hhost in Hact. destruct instance as [server|]; [|done].
  exists providers, tally, server, (e_provider e), (e_allocation e).
  repeat split; try done.
  - by rewrite Hu.
  - unfold tally_get. rewrite Htally. cbn [mbind option_bind]. rewrite Hu.
    apply elem_of_dict_get;
      [by apply (inv_allocs_NoDup _ _ Hinv instance_uuid)|].
    by rewrite Halloc.
Qed.

Lemma writes_follow_the_compute_host_witness :
  exists providers tally server provider allocation,
    outcome (read_phase (three_instance_cloud put_accepts)) =
      Ok (providers, tally) /\
    get_server (three_instance_cloud put_accepts) "i2" = Ok (Some server) /\
    hypervisor_hostname server = Some (rp_name provider) /\
    dict_get (rp_uuid provider) providers = Some provider /\
    tally_get tally "i2" (rp_uuid provider) = Some allocation /\
    {| body_allocations :=
         [ {| resource_provider_uuid := "p2";
              req_resources := [("VCPU", 4)] |} ] |} =
      {| body_allocations :=
           [ {| resource_provider_uuid := rp_uuid provider;
                req_resources := resources allocation |} ] |}.
Proof.
  apply (writes_follow_the_compute_host (three_instance_cloud put_accepts)
           repair_args "i2").
  right. left.
Defined.

(** ** Failures of the read phase *)

Lemma read_loop_first_failure cloud before provider after e :
  Forall (fun p => exists items, fetch cloud (rp_uuid p) = Ok items) before ->
  fetch cloud (rp_uuid provider) = Raise e ->
  forall st,
    outcome (for_fold (before ++ provider :: after) (read_provider cloud) st) =
    Raise e.
Proof.
  intros Hbefore Hfail.
  induction Hbefore as [|p before [items Hp] _ IH]; intros [providers tally];
    cbn [app for_fold]; rewrite outcome_bind, read_provider_outcome.
  - by rewrite Hfail.
  - rewrite Hp. apply IH.
Qed.

Lemma read_phase_listing_outcome cloud :
  outcome (read_phase cloud) =
  match listing_of cloud with
  | Ok listing =>
      outcome (for_fold listing (read_provider cloud)
                 (([] : dict ResourceProvider), ([] : dict (dict Allocation))))
  | Raise e => Raise e
  end.
Proof.
  rewrite read_phase_outcome. unfold listing_of.
  by destruct (session_get_resource_providers cloud).
Qed.

(** X14.  The allocations of the providers are fetched in the order of
    the listing, and the first fetch that fails, by an exception of the
    session or by a body without ['allocations'], ends the run with its
    exception: nothing is printed and nothing is written, whatever the
    providers read before it hold. *)
Theorem first_failing_fetch_ends_run (cloud : Cloud) (args : Args)
    (before after : list ResourceProvider) (provider : ResourceProvider)
    (e : exn) :
  listing_of cloud = Ok (before ++ provider :: after) ->
  Forall (fun p => exists items, fetch cloud (rp_uuid p) = Ok items) before ->
  fetch cloud (rp_uuid provider) = Raise e ->
  outcome (main cloud args) = Raise e /\
  stdout (trace (main cloud args)) = [] /\
  puts (trace (main cloud args)) = [].
Proof.
  intros Hlisting Hbefore Hfail.
  assert (Hc : outcome (classifier cloud args) = Raise e).
  { rewrite classifier_outcome, read_phase_listing_outcome, Hlisting.
    by rewrite (read_loop_first_failure _ _ _ _ _ Hbefore Hfail). }
  pose proof (main_spec cloud args) as Hmain. cbv zeta in Hmain.
  rewrite Hc in Hmain. tauto.
Qed.

Lemma first_failing_fetch_ends_run_witness :
  let cloud :=
    with_allocations (three_instance_cloud put_accepts)
      (fun uuid =>
         if decide (uuid = "p1")
         then Ok (mkResponse 200
                    {| doc_allocations := Some [("i1", vcpu 2)] |})
         else Ok (mkResponse 200 {| doc_allocations := None |})) in
  outcome (main cloud repair_args) = Raise (KeyError "allocations") /\
  stdout (trace (main cloud repair_args)) = [] /\
  puts (trace (main cloud repair_args)) = [].
Proof.
  intros cloud.
  apply (first_failing_fetch_ends_run cloud repair_args
           [provider_A] [] provider_B (KeyError "allocations")).
  - reflexivity.
  - constructor; [|constructor]. by exists [("i1", vcpu 2)].
  - reflexivity.
Defined.

(** X15.  A listing response that holds no provider, be it an empty
    list or a body without ['resource_providers'] and whatever its
    status, gives a run that finds no conflict: no compute lookup is
    needed, nothing is printed and nothing is written. *)
Theorem empty_listing_gives_empty_run (cloud : Cloud) (args : Args) :
  listing_of cloud = Ok [] ->
  outcome (read_phase cloud) = Ok ([], []) /\
  outcome (classifier cloud args) = Ok [] /\
  stdout (trace (main cloud args)) = [] /\
  puts (trace (main cloud args)) = [].
Proof.
  intros Hlisting.
  assert (Hread : outcome (read_phase cloud) = Ok ([], [])).
  { by rewrite read_phase_listing_outcome, Hlisting. }
  assert (Hc : outcome (classifier cloud args) = Ok []).
  { by rewrite classifier_outcome, Hread. }
  split; [done|]. split; [done|].
  pose proof (main_spec cloud args) as Hmain. cbv zeta in Hmain.
  rewrite Hc in Hmain.
  destruct (outcome (dump_phase cloud args [])).
  - destruct Hmain as (-> & -> & _). split; [done|].
    by destruct (repair args).
  - tauto.
Qed.

Lemma empty_listing_gives_empty_run_witness :
  outcome (classifier multiple_choices_cloud repair_args) = Ok [].
Proof.
  apply (empty_listing_gives_empty_run multiple_choices_cloud repair_args).
  reflexivity.
Defined.

(** ** The compute lookups *)

Lemma Forall2_elem_of_right {A B} (R : A -> B -> Prop) l k y :
  Forall2 R l k -> y ∈ k -> exists x, x ∈ l /\ R x y.
Proof.
  induction 1 as [|x' y' l k Hxy _ IH]; intros Hin.
  - by apply elem_of_nil in Hin.
  - apply elem_of_cons in Hin as [->|Hin].
    + exists x'. split; [left|done].
    + destruct (IH Hin) as (x & Hx & HR). exists x. split; [by right|done].
Qed.

Lemma selected_iff args i allocs :
  selected args (i, allocs) = true <->
  (limit args = [] \/ i ∈ limit args) /\ (1 < dict_len allocs)%nat.
Proof.
  split; [apply selected_true|].
  intros [Hlim Hlen]. unfold selected. cbn [fst snd].
  rewrite (bool_decide_eq_true_2 _ Hlen), andb_true_r.
  destruct Hlim as [Hnil|Hin].
  - by rewrite (bool_decide_eq_true_2 _ Hnil).
  - by rewrite (bool_decide_eq_true_2 _ Hin), orb_true_r.
Qed.

(** X16.  On the tally of a successful read phase the audit succeeds
    exactly when the compute lookup answers (with an instance or with
    none) for every instance that [--limit] allows and that has more
    than one allocation: the lookup of another instance, or an unknown
    provider, never makes it fail. *)
Theorem audit_succeeds_iff_lookups_answer (cloud : Cloud) (args : Args)
    (providers : dict ResourceProvider) (tally : dict (dict Allocation)) :
  outcome (read_phase cloud) = Ok (providers, tally) ->
  (exists multiple,
      outcome (audit_phase cloud args providers tally) = Ok multiple) <->
  (forall instance_uuid allocations,
      (instance_uuid, allocations) ∈ dict_items tally ->
      (limit args = [] \/ instance_uuid ∈ limit args) ->
      (1 < dict_len allocations)%nat ->
      exists instance, get_server cloud instance_uuid = Ok instance).
Proof.
  intros Hread. pose proof (read_phase_inv _ _ _ Hread) as Hinv.
  pose proof (audit_phase_cases cloud args providers tally
                (inv_tally_NoDup _ _ Hinv)) as Hcases.
  unfold dict_items. split.
  - intros [multiple Hout] i allocs Hin Hlim Hlen.
    rewrite Hout in Hcases.
    assert (Hsel : (i, allocs) ∈
                   filter (fun item => selected args item) tally).
    { apply list_elem_of_filter. split; [|done].
      apply Is_true_true. by apply selected_iff. }
    destruct (Forall2_elem_of_right _ _ _ _ Hcases Hsel)
      as (x & _ & _ & _ & (instance & Hsrv & _) & _).
    by exists instance.
  - intros Hanswers.
    destruct (outcome (audit_phase cloud args providers tally))
      as [multiple|e]; [by exists multiple|].
    destruct Hcases as (i & allocs & Hin & Hsel & Hwhy).
    apply selected_iff in Hsel as [Hlim Hlen].
    destruct Hwhy as [Hsrv|(u & Hu & Hnot & _)].
    + destruct (Hanswers i allocs Hin Hlim Hlen) as [instance Hok].
      congruence.
    + destruct Hnot. apply (inv_allocs_known _ _ Hinv i allocs); [|done].
      apply elem_of_dict_get; [apply Hinv|done].
Qed.

Lemma audit_succeeds_iff_lookups_answer_witness :
  exists multiple,
    outcome (audit_phase (three_instance_cloud put_accepts) repair_args
               [("p1", provider_A); ("p2", provider_B)]
               [("i1", [("p1", vcpu 2); ("p2", vcpu 2)]);
                ("i2", [("p1", vcpu 4); ("p2", vcpu 4)]);
                ("i3", [("p1", vcpu 1)])]) = Ok multiple.
Proof.
  apply (audit_succeeds_iff_lookups_answer
           (three_instance_cloud put_accepts) repair_args
           [("p1", provider_A); ("p2", provider_B)]
           [("i1", [("p1", vcpu 2); ("p2", vcpu 2)]);
            ("i2", [("p1", vcpu 4); ("p2", vcpu 4)]);
            ("i3", [("p1", vcpu 1)])]
           eq_refl).
  intros i allocs _ _ _. unfold three_instance_cloud. cbn [get_server].
  destruct (decide (i = "i1")); [by eexists|].
  destruct (decide (i = "i2")); by eexists.
Defined.

Lemma for_fold_ext {A S} (body body' : S -> A -> M S) (l : list A) :
  (forall s x, x ∈ l -> body s x = body' s x) ->
  forall acc, for_fold l body acc = for_fold l body' acc.
Proof.
  induction l as [|x l IH]; intros Hext acc; [done|].
  cbn [for_fold]. rewrite (Hext acc x) by left.
  destruct (body' acc x) as [t [s|e]]; [|done].
  unfold bind. rewrite IH; [done|]. intros s' y Hy. apply Hext. by right.
Qed.

Lemma audit_instance_with_get_server cloud lookup args providers multiple
    i allocs :
  (selected args (i, allocs) = true -> lookup i = get_server cloud i) ->
  audit_instance (with_get_server cloud lookup) args providers multiple
    (i, allocs) =
  audit_instance cloud args providers multiple (i, allocs).
Proof.
  intros Hsame. unfold audit_instance, selected in *. cbn [fst snd] in Hsame.
  destruct (bool_decide (limit args = [])),
           (bool_decide (i ∈ limit args)),
           (bool_decide (1 < dict_len allocs)%nat);
    cbn [negb andb orb] in *; try done;
    cbn [get_server with_get_server]; by rewrite Hsame.
Qed.

(** X17.  The compute service is asked only about the instances that
    [--limit] allows and that have more than one allocation: a run is
    the same, event for event, whatever the lookup of any other instance
    would give or raise. *)
Theorem lookups_are_made_for_conflicts_only (cloud : Cloud) (args : Args)
    (lookup : string -> Result (option Server)) :
  (forall providers tally instance_uuid allocations,
      outcome (read_phase cloud) = Ok (providers, tally) ->
      (instance_uuid, allocations) ∈ dict_items tally ->
      (limit args = [] \/ instance_uuid ∈ limit args) ->
      (1 < dict_len allocations)%nat ->
      lookup instance_uuid = get_server cloud instance_uuid) ->
  main (with_get_server cloud lookup) args = main cloud args.
Proof.
  intros Hsame.
  assert (Hc : classifier (with_get_server cloud lookup) args =
               classifier cloud args).
  { unfold classifier.
    change (read_phase (with_get_server cloud lookup))
      with (read_phase cloud).
    destruct (read_phase cloud) as [t [[providers tally]|e]] eqn:Hread;
      [|done].
    unfold bind. unfold audit_phase.
    rewrite (for_fold_ext
               (audit_instance (with_get_server cloud lookup) args providers)
               (audit_instance cloud args providers)); [done|].
    intros multiple [i allocs] Hin.
    apply audit_instance_with_get_server.
    intros [Hlim Hlen]%selected_iff.
    by apply (Hsame providers tally i allocs). }
  change (main (with_get_server cloud lookup) args)
    with (multiple <- classifier (with_get_server cloud lookup) args ;;
          dump_phase cloud args multiple ;;
          report_phase multiple ;;
          repair_phase cloud args multiple).
  by rewrite Hc.
Qed.

Lemma lookups_are_made_for_conflicts_only_witness :
  main (with_get_server (three_instance_cloud put_accepts)
          (fun instance_uuid =>
             if decide (instance_uuid = "i3")
             then Raise (LibraryError "compute unreachable")
             else get_server (three_instance_cloud put_accepts)
                    instance_uuid))
    repair_args =
  main (three_instance_cloud put_accepts) repair_args.
Proof.
  apply (lookups_are_made_for_conflicts_only
           (three_instance_cloud put_accepts) repair_args).
  intros providers tally i allocs Hread Hin _ Hlen.
  vm_compute in Hread. injection Hread as <- <-.
  destruct (decide (i = "i3")) as [->|]; [|done].
  exfalso. unfold dict_items in Hin.
  apply elem_of_cons in Hin as [Heq|Hin]; [discriminate Heq|].
  apply elem_of_cons in Hin as [Heq|Hin]; [discriminate Heq|].
  apply elem_of_cons in Hin as [Heq|Hin]; [|by apply elem_of_nil in Hin].
  injection Heq as ->. unfold dict_len in Hlen. simpl in Hlen. lia.
Defined.
